(** * langdetect: the detector factory (langdetect/detector_factory.py)

    A shallow embedding of [DetectorFactory]: the language list, the
    n-gram probability table, the two profile loaders, the choice of a
    time-stamped profile directory and the construction of a detector.

    Conventions of the embedding.
    - A method of [DetectorFactory] is a function from the factory before
      the call to the factory after it together with what the call yields:
      a returned value or a raised exception.  A raised exception keeps the
      mutations made before it, as in Python.
    - Python [int]s are [Z]; Python [float]s are the kernel's binary64
      floats; [str] is [string], one character per element.
    - A [dict] iterated in insertion order is an association list; the
      table [word_lang_prob_map], which is only read and written by key,
      is a [gmap]. *)

From Stdlib Require Import ZArith Ascii String Sorted PrimFloat SpecFloat FloatOps.
From stdpp Require Import gmap strings list fin_maps pretty sorting.

Local Open Scope Z_scope.
Local Set Warnings "-register-all".

(** ** Exceptions and outcomes *)

(** The codes of [lang_detect_exception.ErrorCode] that the factory raises. *)
Inductive ErrorCode : Set :=
  | FormatError
  | FileLoadError
  | DuplicateLangError
  | NeedLoadProfileError.

Inductive exn : Set :=
  | LangDetectException (code : ErrorCode)
  | NameError
  | ValueError
  | TypeError
  | IndexError
  | KeyError
  | ZeroDivisionError
  | OverflowError
  | OSError.

Inductive outcome (A : Type) : Type :=
  | Return (a : A)
  | Raise (e : exn).
Arguments Return {A} a.
Arguments Raise {A} e.

(** ** Python numbers and sequences *)

(** [float(z)] for an [int]: the nearest binary64 value, ties to even;
    [OverflowError] when it is out of range. *)
Definition float_of_int (z : Z) : outcome float :=
  match binary_normalize prec emax z 0 false with
  | S754_infinity _ => Raise OverflowError
  | f => Return (SF2Prim f)
  end.

(** [x / t] for a float [x] and an int [t]: [t] is converted first, then a
    zero divisor raises.  No nonzero int converts to [0.0], so the test
    is made on the int. *)
Definition float_truediv_int (x : float) (t : Z) : outcome float :=
  match float_of_int t with
  | Raise e => Raise e
  | Return y => if t =? 0 then Raise ZeroDivisionError else Return (PrimFloat.div x y)
  end.

(** [1.0 * c] for an int [c]. *)
Definition float_mul_int (x : float) (c : Z) : outcome float :=
  match float_of_int c with
  | Raise e => Raise e
  | Return y => Return (PrimFloat.mul x y)
  end.

(** The position that [l[i]] addresses: negative indices count from the
    end, anything else out of range is an [IndexError]. *)
Definition py_index {A} (l : list A) (i : Z) : option nat :=
  let n := Z.of_nat (length l) in
  if (0 <=? i) && (i <? n) then Some (Z.to_nat i)
  else if (- n <=? i) && (i <? 0) then Some (Z.to_nat (n + i))
  else None.

Definition py_getitem {A} (l : list A) (i : Z) : outcome A :=
  match py_index l i with
  | Some k => match l !! k with Some x => Return x | None => Raise IndexError end
  | None => Raise IndexError
  end.

Definition py_setitem {A} (l : list A) (i : Z) (x : A) : outcome (list A) :=
  match py_index l i with
  | Some k => Return (<[k := x]> l)
  | None => Raise IndexError
  end.

(** [[x] * n]: empty when [n] is not positive. *)
Definition py_repeat {A} (x : A) (n : Z) : list A := replicate (Z.to_nat n) x.

(** [d.get(k)] on a dict kept in insertion order. *)
Fixpoint dict_get {V} (d : list (string * V)) (k : string) : option V :=
  match d with
  | [] => None
  | (k', v) :: d' => if decide (k' = k) then Some v else dict_get d' k
  end.

(** The keys a [for k in d] loop visits. *)
Definition dict_keys {V} (d : list (string * V)) : list string := d.*1.

(** ** Profiles *)

(** Modelled from the spec: the class [utils.lang_profile.LangProfile] is
    outside the sources; the spec's ProfileRecord gives its three fields,
    the language tag, the occurrence count of each n-gram and the totals
    per n-gram length. *)
Record LangProfile : Type := {
  name : string;
  freq : list (string * Z);
  n_words : list Z;
}.

(** ** The factory *)

Record DetectorFactory : Type := {
  word_lang_prob_map : gmap string (list float);
  langlist : list string;
}.

(** [__init__], and what [clear] leaves. *)
Definition new_factory : DetectorFactory :=
  {| word_lang_prob_map := ∅; langlist := [] |}.

Definition set_langlist (l : list string) (self : DetectorFactory) : DetectorFactory :=
  {| word_lang_prob_map := word_lang_prob_map self; langlist := l |}.

Definition set_word (word : string) (v : list float) (self : DetectorFactory)
  : DetectorFactory :=
  {| word_lang_prob_map := <[word := v]> (word_lang_prob_map self);
     langlist := langlist self |}.

(** A method body: the factory goes in, the factory and the outcome come out. *)
Definition M (A : Type) : Type := DetectorFactory → DetectorFactory * outcome A.

Definition ret {A} (a : A) : M A := λ self, (self, Return a).
Definition raise {A} (e : exn) : M A := λ self, (self, Raise e).
Definition bind {A B} (c : M A) (k : A → M B) : M B :=
  λ self, match c self with
          | (self', Return a) => k a self'
          | (self', Raise e) => (self', Raise e)
          end.
Definition lift {A} (o : outcome A) : M A := λ self, (self, o).
Definition get_self : M DetectorFactory := λ self, (self, Return self).
Definition update (f : DetectorFactory → DetectorFactory) : M unit :=
  λ self, (f self, Return tt).

(** [try: c  except: h]: a bare [except] catches every exception. *)
Definition try_except {A} (c : M A) (h : exn → M A) : M A :=
  λ self, match c self with
          | (self', Return a) => (self', Return a)
          | (self', Raise e) => h e self'
          end.

Notation "'let*' x ':=' c 'in' k" := (bind c (λ x, k))
  (at level 10, x name, c at level 100, k at level 200, only parsing).
Notation "c ;;; k" := (bind c (λ _, k))
  (at level 100, k at level 200, right associativity, only parsing).

(** [for x in xs: body x], stopping at the first exception. *)
Fixpoint for_each {A} (xs : list A) (body : A → M unit) : M unit :=
  match xs with
  | [] => ret tt
  | x :: xs' => body x ;;; for_each xs' body
  end.

(** *** add_profile *)

(** [1.0 * profile.freq.get(word) / profile.n_words[length - 1]], operands
    evaluated left to right. *)
Definition probability (profile : LangProfile) (word : string) (length : Z)
  : outcome float :=
  match dict_get (freq profile) word with
  | None => Raise TypeError
  | Some count =>
    match float_mul_int 1 count with
    | Raise e => Raise e
    | Return x =>
      match py_getitem (n_words profile) (length - 1) with
      | Raise e => Raise e
      | Return total => float_truediv_int x total
      end
    end
  end.

(** One turn of the loop over [profile.freq]. *)
Definition add_word (profile : LangProfile) (index langsize : Z) (word : string)
  : M unit :=
  let* self := get_self in
  (if decide (word ∈ dom (word_lang_prob_map self))
   then ret tt
   else update (set_word word (py_repeat 0%float langsize))) ;;;
  let length := Z.of_nat (String.length word) in
  if (1 <=? length) && (length <=? 3) then
    let* prob := lift (probability profile word length) in
    let* self := get_self in
    match word_lang_prob_map self !! word with
    | None => raise KeyError
    | Some vec =>
      let* vec' := lift (py_setitem vec index prob) in
      update (set_word word vec')
    end
  else ret tt.

Definition add_profile (profile : LangProfile) (index langsize : Z) : M unit :=
  let lang := name profile in
  let* self := get_self in
  if decide (lang ∈ langlist self)
  then raise (LangDetectException DuplicateLangError)
  else
    update (set_langlist (langlist self ++ [lang])) ;;;
    for_each (dict_keys (freq profile)) (add_word profile index langsize).

(** [clear]. *)
Definition clear : M unit := update (λ _, new_factory).

(** ** Profile sources *)

(** Modelled from the spec: [json.loads] and the constructor call
    [LangProfile], called on the decoded fields, are outside the sources.  A JSON profile
    text is kept as what the two make of it: a profile record, or an
    exception for a malformed one. *)
Inductive json_profile : Type :=
  | Malformed
  | WellFormed (profile : LangProfile).

Definition parse_profile (j : json_profile) : outcome LangProfile :=
  match j with
  | Malformed => Raise ValueError
  | WellFormed profile => Return profile
  end.

(** *** load_json_profile *)

(** The loop of [load_json_profile]; [index] is the loop's counter. *)
Fixpoint load_json_loop (json_profiles : list json_profile) (index langsize : Z)
  : M unit :=
  match json_profiles with
  | [] => ret tt
  | json_profile :: rest =>
    try_except
      (let* profile := lift (parse_profile json_profile) in
       add_profile profile index langsize)
      (λ _, raise (LangDetectException FormatError)) ;;;
    load_json_loop rest (index + 1) langsize
  end.

Definition load_json_profile (json_profiles : list json_profile) : M unit :=
  let langsize := Z.of_nat (length json_profiles) in
  if langsize <? 2 then raise (LangDetectException NeedLoadProfileError)
  else load_json_loop json_profiles 0 langsize.

(** *** The file system seen by load_profile *)

(** A file either cannot be opened or holds a JSON text. *)
Inductive file : Type :=
  | Unreadable
  | Text (j : json_profile).

(** A directory lists its entries in the order [os.listdir] gives them. *)
Inductive node : Type :=
  | File (f : file)
  | Dir (entries : list (string * node)).

(** What a path leads to; [None] when nothing is there. *)
Definition path : Type := option node.

Definition os_listdir (p : path) : outcome (list string) :=
  match p with
  | Some (Dir entries) => Return (dict_keys entries)
  | _ => Raise OSError
  end.

Definition path_join (p : path) (filename : string) : path :=
  match p with
  | Some (Dir entries) => dict_get entries filename
  | _ => None
  end.

Definition path_isfile (p : path) : bool :=
  match p with
  | Some (File _) => true
  | _ => false
  end.

(** [open] followed by reading the text. *)
Definition open_file (p : path) : outcome json_profile :=
  match p with
  | Some (File (Text j)) => Return j
  | _ => Raise OSError
  end.

(** [filename.startswith('.')]. *)
Definition startswith_dot (filename : string) : bool :=
  match filename with
  | String c _ => bool_decide (c = "."%char)
  | EmptyString => false
  end.

(** *** get_best_timehash *)

(** A reading of the clock, [datetime.now()]. *)
Record datetime : Type := {
  year : Z;
  month : Z;
  day : Z;
  hour : Z;
  minute : Z;
}.

(** [str(z)] for an int. *)
Definition py_str (z : Z) : string := pretty z.

(** A field of [strftime], padded with zeros to [width] digits. *)
Definition zero_pad (width : nat) (z : Z) : string :=
  let s := py_str z in
  String.concat EmptyString (replicate (width - String.length s) "0"%string) +:+ s.

(** [strftime("%m%d%Y%H%M")]: month, day, year of four digits, hour,
    minute. *)
Definition strftime_mdYHM (now : datetime) : string :=
  zero_pad 2 (month now) +:+ zero_pad 2 (day now) +:+ zero_pad 4 (year now)
  +:+ zero_pad 2 (hour now) +:+ zero_pad 2 (minute now).

Definition digit_of (c : ascii) : option Z :=
  let n := Z.of_N (N_of_ascii c) in
  if (48 <=? n) && (n <=? 57) then Some (n - 48) else None.

(** The blanks [int] strips from both ends of its argument: tab to
    carriage return and the space, and, of the characters above 127, the
    next-line character and the no-break space. *)
Definition is_space (c : ascii) : bool :=
  let n := Z.of_N (N_of_ascii c) in
  ((9 <=? n) && (n <=? 13)) || (n =? 32) || (n =? 133) || (n =? 160).

Fixpoint lstrip (s : string) : string :=
  match s with
  | String c s' => if is_space c then lstrip s' else s
  | EmptyString => EmptyString
  end.

Definition strip (s : string) : string :=
  String.rev (lstrip (String.rev (lstrip s))).

(** The digits of a decimal literal, most significant first; an underscore
    may stand between two digits.  [after_digit] tells whether the
    character just read was a digit. *)
Fixpoint int_digits (acc : Z) (after_digit : bool) (s : string) : option Z :=
  match s with
  | EmptyString => if after_digit then Some acc else None
  | String c s' =>
    match digit_of c with
    | Some d => int_digits (10 * acc + d) true s'
    | None =>
      if bool_decide (c = "_"%char) && after_digit
      then int_digits acc false s'
      else None
    end
  end.

(** [int(x)] for a string: blanks stripped, an optional sign, then decimal
    digits; [ValueError] for anything else. *)
Definition py_int (x : string) : outcome Z :=
  let body (sign : Z) (s : string) :=
    match int_digits 0 false s with
    | Some z => Return (sign * z)
    | None => Raise ValueError
    end in
  match strip x with
  | String "-" s => body (-1) s
  | String "+" s => body 1 s
  | s => body 1 s
  end.

(** [[int(x) for x in options]]. *)
Fixpoint ints_of (options : list string) : outcome (list Z) :=
  match options with
  | [] => Return []
  | x :: rest =>
    match py_int x with
    | Raise e => Raise e
    | Return z =>
      match ints_of rest with
      | Raise e => Raise e
      | Return zs => Return (z :: zs)
      end
    end
  end.

Fixpoint insert_descending (x : Z) (l : list Z) : list Z :=
  match l with
  | [] => [x]
  | y :: l' => if y <? x then x :: l else y :: insert_descending x l'
  end.

(** [sorted(l, reverse=True)]. *)
Definition sorted_reverse (l : list Z) : list Z := foldr insert_descending [] l.

(** The loop of [get_best_timehash] over the sorted timestamps. *)
Fixpoint first_not_after (current_datetime : string) (int_sorted_timehash : list Z)
  : outcome string :=
  match int_sorted_timehash with
  | [] => Raise NameError
  | timestamps :: rest =>
    match py_int current_datetime with
    | Raise e => Raise e
    | Return current =>
      if timestamps <=? current then
        if (String.length (py_str timestamps) <? 12)%nat
        then Return ("0" +:+ py_str timestamps)
        else Return (py_str timestamps)
      else first_not_after current_datetime rest
    end
  end.

Definition get_best_timehash (now : datetime) (options : list string)
  : outcome string :=
  let current_datetime := strftime_mdYHM now in
  match ints_of options with
  | Raise e => Raise e
  | Return ints => first_not_after current_datetime (sorted_reverse ints)
  end.

(** *** load_profile *)

(** The loop of [load_profile] over the listed names; [index] advances only
    when a profile was added. *)
Fixpoint load_profile_loop (profile_directory : path) (list_files : list string)
    (index langsize : Z) : M unit :=
  match list_files with
  | [] => ret tt
  | filename :: rest =>
    if startswith_dot filename
    then load_profile_loop profile_directory rest index langsize
    else
      let filename := path_join profile_directory filename in
      if negb (path_isfile filename)
      then load_profile_loop profile_directory rest index langsize
      else
        try_except
          (let* json_data := lift (open_file filename) in
           let* profile := lift (parse_profile json_data) in
           add_profile profile index langsize)
          (λ e, match e with
                | OSError => raise (LangDetectException FileLoadError)
                | _ => raise (LangDetectException FormatError)
                end) ;;;
        load_profile_loop profile_directory rest (index + 1) langsize
  end.

(** The directory whose files are loaded, with its listing: the given one
    in mode [classic], else its best time-stamped subdirectory.  The line
    printed in that case is left out. *)
Definition profile_listing (now : datetime) (profile_directory : path) (mode : string)
  : outcome (path * list string) :=
  if decide (mode = "classic"%string) then
    match os_listdir profile_directory with
    | Raise e => Raise e
    | Return list_files => Return (profile_directory, list_files)
    end
  else
    match os_listdir profile_directory with
    | Raise e => Raise e
    | Return timehash_dirs =>
      match get_best_timehash now timehash_dirs with
      | Raise e => Raise e
      | Return best =>
        let profile_directory := path_join profile_directory best in
        match os_listdir profile_directory with
        | Raise e => Raise e
        | Return list_files => Return (profile_directory, list_files)
        end
      end
    end.

Definition load_profile (now : datetime) (profile_directory : path) (mode : string)
  : M unit :=
  let* listing := lift (profile_listing now profile_directory mode) in
  let profile_directory := listing.1 in
  let list_files := listing.2 in
  match list_files with
  | [] => raise (LangDetectException NeedLoadProfileError)
  | _ =>
    let langsize := Z.of_nat (length list_files) in
    load_profile_loop profile_directory list_files 0 langsize
  end.

(** *** create *)

(** Modelled from the spec: the class [detector.Detector] is outside the
    sources.  Its constructor takes the factory and keeps the factory's
    table and language list; the smoothing parameter starts at its default
    and [set_alpha] replaces it. *)
Record Detector : Type := {
  detector_word_lang_prob_map : gmap string (list float);
  detector_langlist : list string;
  alpha : float;
}.

Definition Detector_init (factory : DetectorFactory) : Detector :=
  {| detector_word_lang_prob_map := word_lang_prob_map factory;
     detector_langlist := langlist factory;
     alpha := 0.5%float |}.

Definition set_alpha (a : float) (detector : Detector) : Detector :=
  {| detector_word_lang_prob_map := detector_word_lang_prob_map detector;
     detector_langlist := detector_langlist detector;
     alpha := a |}.

Definition _create_detector : M Detector :=
  let* self := get_self in
  match langlist self with
  | [] => raise (LangDetectException NeedLoadProfileError)
  | _ => ret (Detector_init self)
  end.

Definition create (alpha : option float) : M Detector :=
  let* detector := _create_detector in
  match alpha with
  | Some a => ret (set_alpha a detector)
  | None => ret detector
  end.

(** ** Objects and references

    [get_lang_list] hands a list object to its caller, so what matters is
    which object it is.  Here the factory's two attributes are references
    into a heap of objects. *)

Inductive object : Type :=
  | ListObject (items : list string)
  | TableObject (table : gmap string (list float)).

Record factory_object : Type := {
  langlist_ref : positive;
  word_lang_prob_map_ref : positive;
}.

(** The factory that a factory object stands for in a heap. *)
Definition factory_of (h : gmap positive object) (self : factory_object)
  : option DetectorFactory :=
  match h !! langlist_ref self, h !! word_lang_prob_map_ref self with
  | Some (ListObject items), Some (TableObject table) =>
    Some {| word_lang_prob_map := table; langlist := items |}
  | _, _ => None
  end.

(** [list(x)]: a new list object holding the items of the list at [x]. *)
Definition list_copy (x : positive) (h : gmap positive object)
  : option (gmap positive object * positive) :=
  match h !! x with
  | Some (ListObject items) =>
    let r := fresh (dom h) in Some (<[r := ListObject items]> h, r)
  | _ => None
  end.

Definition get_lang_list (self : factory_object) (h : gmap positive object)
  : option (gmap positive object * positive) :=
  list_copy (langlist_ref self) h.

(** A mutation of the list object at [r]: its items become [f items]. *)
Definition mutate_list (r : positive) (f : list string → list string)
    (h : gmap positive object) : gmap positive object :=
  match h !! r with
  | Some (ListObject items) => <[r := ListObject (f items)]> h
  | _ => h
  end.

(** ** Calendar order

    The moment that a directory name of the form MMDDYYYYHHMM, read as an
    int, stands for, and the order of moments in time. *)

Definition datetime_of_timehash (z : Z) : datetime :=
  {| year := (z / 10 ^ 4) mod 10 ^ 4;
     month := z / 10 ^ 10;
     day := (z / 10 ^ 8) mod 100;
     hour := (z / 100) mod 100;
     minute := z mod 100 |}.

Definition moment (t : datetime) : list Z :=
  [year t; month t; day t; hour t; minute t].

Fixpoint lex_leb (a b : list Z) : bool :=
  match a, b with
  | x :: a', y :: b' => (x <? y) || ((x =? y) && lex_leb a' b')
  | [], _ => true
  | _ :: _, [] => false
  end.

(** [t1] is not later than [t2]. *)
Definition not_later (t1 t2 : datetime) : bool := lex_leb (moment t1) (moment t2).

(** The vector a turn of the loop of [add_profile] starts from: the one in
    the table, or a new one of [langsize] zeros. *)
Definition start_vector (langsize : Z) (word : string) (self : DetectorFactory)
  : list float :=
  default (py_repeat 0%float langsize) (word_lang_prob_map self !! word).

(** [1 <= len(word) <= 3]. *)
Definition in_range (word : string) : bool :=
  (1 <=? Z.of_nat (String.length word)) && (Z.of_nat (String.length word) <=? 3).

(** Every vector of the table has [n] slots. *)
Definition vectors_of_length (n : nat) (self : DetectorFactory) : Prop :=
  ∀ word vec, word_lang_prob_map self !! word = Some vec → length vec = n.

(** The names of a listing that [load_profile] does not skip: no leading
    dot, and a file. *)
Definition loaded_file (profile_directory : path) (filename : string) : bool :=
  negb (startswith_dot filename) && path_isfile (path_join profile_directory filename).

(** Every probability that [add_profile] computes for the profile is
    defined: the count and the total of each key of length 1 to 3 convert
    to floats, and the total is there and is not zero. *)
Definition probabilities_defined (profile : LangProfile) : Prop :=
  ∀ word count,
    dict_get (freq profile) word = Some count →
    in_range word = true →
    ∃ total c t,
      n_words profile !! (String.length word - 1)%nat = Some total
      ∧ total ≠ 0
      ∧ float_of_int count = Return c
      ∧ float_of_int total = Return t.

(** What [get_best_timehash] returns for the timestamp it picked. *)
Definition timehash_name (timestamps : Z) : string :=
  if (String.length (py_str timestamps) <? 12)%nat
  then "0" +:+ py_str timestamps
  else py_str timestamps.

(** ** Sample data *)

Definition sample_en : LangProfile :=
  {| name := "en"; freq := [("th"%string, 100); ("he"%string, 80)];
     n_words := [0; 180; 0] |}.

Definition sample_fr : LangProfile :=
  {| name := "fr"; freq := [("le"%string, 90); ("es"%string, 70)];
     n_words := [0; 160; 0] |}.

(** 1 February 2025, 12:00. *)
Definition sample_now : datetime :=
  {| year := 2025; month := 2; day := 1; hour := 12; minute := 0 |}.

(** A profile directory with a hidden file beside two profiles. *)
Definition sample_directory : path :=
  Some (Dir [(".DS_Store"%string, File (Text Malformed));
             ("en"%string, File (Text (WellFormed sample_en)));
             ("fr"%string, File (Text (WellFormed sample_fr)))]).

(** A profile directory with one profile. *)
Definition single_directory : path :=
  Some (Dir [("en"%string, File (Text (WellFormed sample_en)))]).

(** The factory after the profile of English alone was added, as the
    first of two. *)
Definition loaded_en : DetectorFactory :=
  (add_profile sample_en 0 2 new_factory).1.

(** The factory after the profiles of English and French were loaded. *)
Definition loaded_en_fr : DetectorFactory :=
  (load_json_profile [WellFormed sample_en; WellFormed sample_fr] new_factory).1.

(** A heap with a factory object whose [langlist] is at 1 and whose table
    is at 2. *)
Definition sample_heap : gmap positive object :=
  {[ 1%positive := ListObject ["en"; "fr"]%string; 2%positive := TableObject ∅ ]}.

Definition sample_factory_object : factory_object :=
  {| langlist_ref := 1; word_lang_prob_map_ref := 2 |}.

(** ** The module's factory *)

(** [s.find(sub)]: the first position of [sub] in [s], or -1. *)
Definition py_find (s sub : string) : Z :=
  match String.index 0 sub s with
  | Some n => Z.of_nat n
  | None => -1
  end.

(** [init_factory].  The global [_factory] is [None] until the first call;
    it is bound to the new factory before the profiles are loaded, so the
    call leaves it bound to the factory given back here, also when the
    load raises.  [package] tells what the path of a directory name under
    the package's directory leads to. *)
Definition init_factory (now : datetime) (package : string → path)
    (profiles_directory : string) (_factory : option DetectorFactory)
  : DetectorFactory * outcome unit :=
  match _factory with
  | None => load_profile now (package profiles_directory) "classic" new_factory
  | Some self =>
    if py_find profiles_directory "timed_" =? 0
    then load_profile now (package profiles_directory) "expiration" new_factory
    else (self, Return tt)
  end.

(** [detect].  The detector's own work on the text, [append] followed by
    [detect], is outside the sources and is taken as given; it draws on
    the random source, so its result depends on the state [random] of
    that source as well. *)
Definition detect {R A} (Detector_detect : R → Detector → string → outcome A)
    (random : R) (now : datetime) (package : string → path)
    (text profiles_directory : string) (_factory : option DetectorFactory)
  : DetectorFactory * outcome A :=
  match init_factory now package profiles_directory _factory with
  | (self, Raise e) => (self, Raise e)
  | (self, Return _) =>
    match create None self with
    | (self', Raise e) => (self', Raise e)
    | (self', Return detector) => (self', Detector_detect random detector text)
    end
  end.

(** [detect_langs]: as [detect], with [get_probabilities] for the
    detector's work. *)
Definition detect_langs {R A}
    (Detector_get_probabilities : R → Detector → string → outcome A)
    (random : R) (now : datetime) (package : string → path)
    (text profiles_directory : string) (_factory : option DetectorFactory)
  : DetectorFactory * outcome A :=
  match init_factory now package profiles_directory _factory with
  | (self, Raise e) => (self, Raise e)
  | (self, Return _) =>
    match create None self with
    | (self', Raise e) => (self', Raise e)
    | (self', Return detector) =>
      (self', Detector_get_probabilities random detector text)
    end
  end.

(** The JSON texts that [load_profile] reads from a listing: those of the
    names it does not skip. *)
Definition profile_texts (profile_directory : path) (list_files : list string)
  : list json_profile :=
  omap (λ filename,
          if loaded_file profile_directory filename
          then match path_join profile_directory filename with
               | Some (File (Text j)) => Some j
               | _ => None
               end
          else None) list_files.

(** Every name of the listing that is not skipped is a file that can be
    read. *)
Definition all_readable (profile_directory : path) (list_files : list string) : Prop :=
  ∀ filename,
    filename ∈ list_files →
    loaded_file profile_directory filename = true →
    ∃ j, path_join profile_directory filename = Some (File (Text j)).

(** A package directory in which every name leads to an empty directory. *)
Definition empty_package (profiles_directory : string) : path := Some (Dir []).

(** A directory of two time-stamped subdirectories. *)
Definition timed_directory : path :=
  Some (Dir [("010120251200"%string,
              Dir [("en"%string, File (Text (WellFormed sample_en)));
                   ("fr"%string, File (Text (WellFormed sample_fr)))]);
             ("013120251200"%string,
              Dir [("fr"%string, File (Text (WellFormed sample_fr)));
                   ("en"%string, File (Text (WellFormed sample_en)))])]).

(** A directory with an unreadable file after a profile. *)
Definition unreadable_directory : path :=
  Some (Dir [("en"%string, File (Text (WellFormed sample_en)));
             ("fr"%string, File Unreadable)]).

(** A profile with a key of four characters. *)
Definition sample_long : LangProfile :=
  {| name := "xx"; freq := [("long"%string, 3); ("th"%string, 1)];
     n_words := [0; 4; 0] |}.

Definition sample_de : LangProfile :=
  {| name := "de"; freq := [("ch"%string, 60); ("th"%string, 5)];
     n_words := [0; 65; 0] |}.

Definition sample_es : LangProfile :=
  {| name := "es"; freq := [("qu"%string, 40)]; n_words := [0; 40; 0] |}.

(** The factory after the load of [unreadable_directory] stopped at its
    unreadable file. *)
Definition loaded_en_unreadable : DetectorFactory :=
  (load_profile sample_now unreadable_directory "classic" new_factory).1.

(** A profile whose total for two-character keys is zero. *)
Definition sample_zz : LangProfile :=
  {| name := "zz"; freq := [("ab"%string, 1)]; n_words := [0; 0; 0] |}.

(** * Properties *)

(** ** One turn of the loop of add_profile *)

Section AddWord.
Context (profile : LangProfile) (index langsize : Z).

Lemma add_word_unfold word self :
  add_word profile index langsize word self =
  let old := start_vector langsize word self in
  let self1 := set_word word old self in
  if in_range word then
    match probability profile word (Z.of_nat (String.length word)) with
    | Raise e => (self1, Raise e)
    | Return prob =>
      match py_setitem old index prob with
      | Raise e => (self1, Raise e)
      | Return vec' => (set_word word vec' self, Return tt)
      end
    end
  else (self1, Return tt).
Proof.
  destruct self as [m l].
  unfold add_word, start_vector, in_range, bind, get_self, update, lift, ret, raise,
    set_word; cbn [word_lang_prob_map langlist].
  destruct (decide (word ∈ dom m)) as [Hin | Hnin].
  - apply elem_of_dom in Hin as [vec Hvec]. rewrite Hvec; cbn [default].
    rewrite (insert_id m word vec Hvec).
    destruct (_ && _); [|done].
    destruct (probability _ _ _); [|done].
    cbn. rewrite Hvec. by destruct (py_setitem _ _ _).
  - apply not_elem_of_dom in Hnin. rewrite Hnin; cbn [default].
    destruct (_ && _); [|done].
    destruct (probability _ _ _); [|done].
    cbn. rewrite lookup_insert_eq.
    destruct (py_setitem _ _ _); [|done].
    cbn. by rewrite insert_insert_eq.
Qed.

Lemma add_word_langlist word self :
  langlist (add_word profile index langsize word self).1 = langlist self.
Proof.
  rewrite add_word_unfold; cbv zeta.
  destruct (in_range word); [|done].
  destruct (probability _ _ _); [|done].
  by destruct (py_setitem _ _ _).
Qed.

Lemma add_word_lookup_ne word self w :
  w ≠ word →
  word_lang_prob_map (add_word profile index langsize word self).1 !! w
  = word_lang_prob_map self !! w.
Proof.
  intros Hne. rewrite add_word_unfold; cbv zeta.
  destruct (in_range word); [|by cbn; rewrite lookup_insert_ne].
  destruct (probability _ _ _); [|by cbn; rewrite lookup_insert_ne].
  destruct (py_setitem _ _ _); by cbn; rewrite lookup_insert_ne.
Qed.

(** What a turn that returns leaves at its own key. *)
Lemma add_word_lookup_eq word self self' :
  add_word profile index langsize word self = (self', Return tt) →
  if in_range word then
    ∃ prob pos,
      probability profile word (Z.of_nat (String.length word)) = Return prob
      ∧ py_index (start_vector langsize word self) index = Some pos
      ∧ word_lang_prob_map self' !! word
        = Some (<[pos := prob]> (start_vector langsize word self))
  else word_lang_prob_map self' !! word = Some (start_vector langsize word self).
Proof.
  rewrite add_word_unfold; cbv zeta.
  destruct (in_range word).
  - destruct (probability _ _ _) as [prob|]; [|done].
    unfold py_setitem.
    destruct (py_index _ _) as [pos|]; [|done].
    intros [= <-]. exists prob, pos. cbn. by rewrite lookup_insert_eq.
  - intros [= <-]. cbn. by rewrite lookup_insert_eq.
Qed.

(** Whatever the turn yields, its key has a vector afterwards, of the
    length of the vector the turn started from. *)
Lemma add_word_lookup_length word self :
  ∃ vec, word_lang_prob_map (add_word profile index langsize word self).1 !! word
         = Some vec
         ∧ length vec = length (start_vector langsize word self).
Proof.
  rewrite add_word_unfold; cbv zeta.
  destruct (in_range word); [|by eexists; cbn; rewrite lookup_insert_eq].
  destruct (probability _ _ _); [|by eexists; cbn; rewrite lookup_insert_eq].
  unfold py_setitem. destruct (py_index _ _).
  - eexists; cbn; rewrite lookup_insert_eq. split; [done|]. by rewrite length_insert.
  - by eexists; cbn; rewrite lookup_insert_eq.
Qed.
End AddWord.

(** ** Sequencing *)

(** Boolean comparisons of ints, turned into their propositions. *)
Ltac Zbool :=
  repeat match goal with
  | H : _ && _ = true |- _ => apply andb_true_iff in H as [? ?]
  | H : _ && _ = false |- _ => apply andb_false_iff in H as [?|?]
  | H : (_ <=? _) = true |- _ => apply Z.leb_le in H
  | H : (_ <=? _) = false |- _ => apply Z.leb_gt in H
  | H : (_ <? _) = true |- _ => apply Z.ltb_lt in H
  | H : (_ <? _) = false |- _ => apply Z.ltb_ge in H
  | H : (_ =? _) = true |- _ => apply Z.eqb_eq in H
  | H : (_ =? _) = false |- _ => apply Z.eqb_neq in H
  end.

Lemma bind_Return {A B} (c : M A) (k : A → M B) self self' b :
  bind c k self = (self', Return b) →
  ∃ a self1, c self = (self1, Return a) ∧ k a self1 = (self', Return b).
Proof.
  unfold bind. destruct (c self) as [self1 [a|e]]; [|done].
  intros Hk. by exists a, self1.
Qed.

Lemma bind_Raise {A B} (c : M A) (k : A → M B) self self' e :
  bind c k self = (self', Raise e) →
  c self = (self', Raise e)
  ∨ ∃ a self1, c self = (self1, Return a) ∧ k a self1 = (self', Raise e).
Proof.
  unfold bind. destruct (c self) as [self1 [a|e']].
  - intros Hk. right. by exists a, self1.
  - intros [= -> ->]. by left.
Qed.

(** A loop that raises does so in one of its turns. *)
Lemma for_each_Raise {A} (xs : list A) (body : A → M unit) self self' e :
  for_each xs body self = (self', Raise e) →
  ∃ x self0, x ∈ xs ∧ body x self0 = (self', Raise e).
Proof.
  revert self. induction xs as [|x xs IH]; intros self; [done|].
  cbn [for_each]. intros [Hx | (a & self1 & _ & Hrest)]%bind_Raise.
  - exists x, self. split; [left|done].
  - destruct (IH _ Hrest) as (y & self0 & Hy & Hbody).
    exists y, self0. split; [by right|done].
Qed.

Lemma py_index_length {A B} (l : list A) (l' : list B) i :
  length l = length l' → py_index l i = py_index l' i.
Proof. unfold py_index. by intros ->. Qed.

Lemma py_index_lt {A} (l : list A) i pos :
  py_index l i = Some pos → (pos < length l)%nat.
Proof.
  unfold py_index. intros H. repeat case_match; simplify_eq; Zbool; lia.
Qed.

Lemma py_index_nonneg {A} (l : list A) i pos :
  0 ≤ i → py_index l i = Some pos → pos = Z.to_nat i.
Proof.
  unfold py_index. intros Hi H. repeat case_match; simplify_eq; Zbool; lia.
Qed.

(** ** The loop of add_profile *)

Section AddWords.
Context (profile : LangProfile) (index langsize : Z).

Abbreviation loop keys := (for_each keys (add_word profile index langsize)).

Lemma add_words_langlist keys self :
  langlist (loop keys self).1 = langlist self.
Proof.
  revert self. induction keys as [|k keys IH]; intros self; [done|].
  cbn [for_each]. unfold bind.
  pose proof (add_word_langlist profile index langsize k self) as Hk.
  destruct (add_word _ _ _ k self) as [self1 [[]|e]]; cbn in *; [|done].
  by rewrite IH.
Qed.

(** Keys off the loop's list keep what they had. *)
Lemma add_words_lookup_notin keys self w :
  w ∉ keys →
  word_lang_prob_map (loop keys self).1 !! w = word_lang_prob_map self !! w.
Proof.
  revert self. induction keys as [|k keys IH]; intros self Hw; [done|].
  apply not_elem_of_cons in Hw as [Hne Hw].
  cbn [for_each]. unfold bind.
  pose proof (add_word_lookup_ne profile index langsize k self w Hne) as Hk.
  destruct (add_word _ _ _ k self) as [self1 [[]|e]]; cbn in *; [|done].
  by rewrite IH.
Qed.

(** What a loop that returns leaves at each of its keys. *)
Lemma add_words_lookup_in keys self self' word :
  loop keys self = (self', Return tt) →
  word ∈ keys →
  if in_range word then
    ∃ prob pos,
      probability profile word (Z.of_nat (String.length word)) = Return prob
      ∧ py_index (start_vector langsize word self) index = Some pos
      ∧ word_lang_prob_map self' !! word
        = Some (<[pos := prob]> (start_vector langsize word self))
  else word_lang_prob_map self' !! word = Some (start_vector langsize word self).
Proof.
  revert self. induction keys as [|k keys IH]; intros self Hloop Hin.
  { by apply elem_of_nil in Hin. }
  cbn [for_each] in Hloop.
  apply bind_Return in Hloop as ([] & self1 & Hk & Hrest).
  destruct (decide (word ∈ keys)) as [Hkeys | Hkeys].
  - specialize (IH _ Hrest Hkeys).
    destruct (decide (word = k)) as [-> | Hne].
    + pose proof (add_word_lookup_eq _ _ _ _ _ _ Hk) as Hhere.
      destruct (in_range k).
      * destruct Hhere as (prob & pos & Hprob & Hpos & Hvec).
        destruct IH as (prob' & pos' & Hprob' & Hpos' & Hvec').
        assert (start_vector langsize k self1
                = <[pos := prob]> (start_vector langsize k self)) as Hs1.
        { unfold start_vector at 1. by rewrite Hvec. }
        rewrite Hs1 in Hpos', Hvec'.
        rewrite (py_index_length _ (start_vector langsize k self)) in Hpos'
          by apply length_insert.
        assert (prob' = prob) as -> by congruence.
        assert (pos' = pos) as -> by congruence.
        rewrite list_insert_insert_eq in Hvec'. by exists prob, pos.
      * rewrite IH. unfold start_vector. by rewrite Hhere.
    + assert (start_vector langsize word self1 = start_vector langsize word self)
        as Heq.
      { unfold start_vector.
        pose proof (add_word_lookup_ne profile index langsize k self word Hne) as E.
        rewrite Hk in E. cbn in E. by rewrite E. }
      by rewrite Heq in IH.
  - assert (word = k) as -> by (apply elem_of_cons in Hin as [?|?]; done).
    pose proof (add_words_lookup_notin keys self1 k Hkeys) as Hkeep.
    rewrite Hrest in Hkeep. cbn in Hkeep. rewrite Hkeep.
    apply (add_word_lookup_eq _ _ _ _ _ _ Hk).
Qed.
End AddWords.

(** ** The probability of an n-gram *)

Lemma float_of_int_Raise z e : float_of_int z = Raise e → e = OverflowError.
Proof.
  unfold float_of_int. destruct (binary_normalize _ _ _ _ _); congruence.
Qed.

Lemma py_getitem_Raise {A} (l : list A) i e : py_getitem l i = Raise e → e = IndexError.
Proof. unfold py_getitem. repeat case_match; congruence. Qed.

Lemma py_getitem_Return {A} (l : list A) i x :
  0 ≤ i → py_getitem l i = Return x → l !! Z.to_nat i = Some x.
Proof.
  unfold py_getitem. intros Hi.
  destruct (py_index l i) as [k|] eqn:Hk; [|done].
  apply py_index_nonneg in Hk as ->; [|done].
  destruct (l !! Z.to_nat i); congruence.
Qed.

Lemma py_setitem_Raise {A} (l : list A) i x e :
  py_setitem l i x = Raise e → e = IndexError.
Proof. unfold py_setitem. case_match; congruence. Qed.

Lemma in_range_length word :
  in_range word = true ↔ (1 ≤ String.length word ≤ 3)%nat.
Proof.
  unfold in_range. rewrite andb_true_iff, Z.leb_le, Z.leb_le. lia.
Qed.

(** A probability that is computed is the quotient of the count by the
    total of the n-gram's length, both as floats. *)
Lemma probability_Return profile word prob :
  in_range word = true →
  probability profile word (Z.of_nat (String.length word)) = Return prob →
  ∃ count total c t,
    dict_get (freq profile) word = Some count
    ∧ n_words profile !! (String.length word - 1)%nat = Some total
    ∧ total ≠ 0
    ∧ float_of_int count = Return c
    ∧ float_of_int total = Return t
    ∧ prob = (1 * c / t)%float.
Proof.
  intros Hlen%in_range_length. unfold probability, float_mul_int, float_truediv_int.
  destruct (dict_get _ _) as [count|]; [|done].
  destruct (float_of_int count) as [c|] eqn:Hc; [|done].
  destruct (py_getitem _ _) as [total|] eqn:Htotal; [|done].
  destruct (float_of_int total) as [t|] eqn:Ht; [|done].
  destruct (total =? 0) eqn:Hz; [done|]. intros [= <-].
  apply py_getitem_Return in Htotal; [|lia].
  replace (Z.to_nat (Z.of_nat (String.length word) - 1))
    with (String.length word - 1)%nat in Htotal by lia.
  exists count, total, c, t. Zbool. done.
Qed.

(** A probability whose total is not zero does not fail on the division. *)
Lemma probability_ZeroDivisionError profile word :
  in_range word = true →
  probability profile word (Z.of_nat (String.length word)) = Raise ZeroDivisionError →
  n_words profile !! (String.length word - 1)%nat = Some 0.
Proof.
  intros Hlen%in_range_length. unfold probability, float_mul_int, float_truediv_int.
  destruct (dict_get _ _) as [count|]; [|done].
  destruct (float_of_int count) as [c|] eqn:Hc.
  2:{ intros [= ->]. by apply float_of_int_Raise in Hc. }
  destruct (py_getitem _ _) as [total|] eqn:Htotal.
  2:{ intros [= ->]. by apply py_getitem_Raise in Htotal. }
  apply py_getitem_Return in Htotal; [|lia].
  replace (Z.to_nat (Z.of_nat (String.length word) - 1))
    with (String.length word - 1)%nat in Htotal by lia.
  destruct (float_of_int total) as [t|] eqn:Ht.
  2:{ intros [= ->]. by apply float_of_int_Raise in Ht. }
  destruct (total =? 0) eqn:Hz; [|done]. Zbool. by subst.
Qed.

(** ** add_profile *)

Lemma add_profile_unfold profile index langsize self :
  add_profile profile index langsize self =
  if decide (name profile ∈ langlist self)
  then (self, Raise (LangDetectException DuplicateLangError))
  else for_each (dict_keys (freq profile)) (add_word profile index langsize)
         (set_langlist (langlist self ++ [name profile]) self).
Proof.
  unfold add_profile, bind, get_self, update, raise. by case_decide.
Qed.

(** C1: when [add_profile] returns, every key of the profile's frequency
    map of length 1 to 3 has, in [word_lang_prob_map], the vector it
    started from (the one already in the table, else [langsize] zeros)
    with the slot addressed by [index] set to the float quotient of the
    key's count by [n_words[len - 1]]; the other slots are as they were. *)
Theorem add_profile_stores_probability profile index langsize self self' word :
  add_profile profile index langsize self = (self', Return tt) →
  word ∈ dict_keys (freq profile) →
  (1 ≤ String.length word ≤ 3)%nat →
  ∃ count total c t pos,
    dict_get (freq profile) word = Some count
    ∧ n_words profile !! (String.length word - 1)%nat = Some total
    ∧ total ≠ 0
    ∧ float_of_int count = Return c
    ∧ float_of_int total = Return t
    ∧ py_index (start_vector langsize word self) index = Some pos
    ∧ (0 ≤ index → pos = Z.to_nat index)
    ∧ word_lang_prob_map self' !! word
      = Some (<[pos := (1 * c / t)%float]> (start_vector langsize word self)).
Proof.
  rewrite add_profile_unfold. case_decide; [done|].
  intros Hloop Hin Hlen%in_range_length.
  pose proof (add_words_lookup_in _ _ _ _ _ _ _ Hloop Hin) as Hw.
  rewrite Hlen in Hw. destruct Hw as (prob & pos & Hprob & Hpos & Hvec).
  apply probability_Return in Hprob
    as (count & total & c & t & Hcount & Htotal & Hnz & Hc & Ht & ->); [|done].
  exists count, total, c, t, pos.
  repeat split; try done.
  intros Hi. by eapply py_index_nonneg.
Qed.

(** C3: whatever the factory holds, [add_profile] on a profile whose
    language is already in [langlist] raises the exception with code
    [DuplicateLangError], and changes nothing. *)
Theorem add_profile_duplicate profile index langsize self :
  name profile ∈ langlist self →
  add_profile profile index langsize self
  = (self, Raise (LangDetectException DuplicateLangError)).
Proof. intros Hin. rewrite add_profile_unfold. by case_decide. Qed.

(** C9: when every n-gram length from 1 to 3 that some key of the
    profile's frequency map has comes with a positive total in [n_words],
    [add_profile] does not raise [ZeroDivisionError], and no division it
    makes for a key has a zero divisor. *)
Theorem add_profile_no_zero_division profile index langsize self :
  (∀ L : nat, (1 ≤ L ≤ 3)%nat →
     (∃ word, word ∈ dict_keys (freq profile) ∧ String.length word = L) →
     ∃ total, n_words profile !! (L - 1)%nat = Some total ∧ 0 < total) →
  (add_profile profile index langsize self).2 ≠ Raise ZeroDivisionError
  ∧ ∀ word x, word ∈ dict_keys (freq profile) →
      (1 ≤ String.length word ≤ 3)%nat →
      ∃ total, n_words profile !! (String.length word - 1)%nat = Some total
               ∧ float_truediv_int x total ≠ Raise ZeroDivisionError.
Proof.
  intros Hpos. split.
  - rewrite add_profile_unfold. case_decide; [done|].
    destruct (for_each _ _ _) as [self' [[]|e]] eqn:Hloop; [done|]. cbn.
    intros [= ->].
    apply for_each_Raise in Hloop as (word & self0 & Hin & Hword).
    rewrite add_word_unfold in Hword; cbv zeta in Hword.
    destruct (in_range word) eqn:Hlen; [|done].
    destruct (probability _ _ _) as [prob|e] eqn:Hprob.
    + destruct (py_setitem _ _ _) as [vec|e] eqn:Hset; [done|].
      apply py_setitem_Raise in Hset. congruence.
    + injection Hword as _ ->.
      apply probability_ZeroDivisionError in Hprob; [|done].
      apply in_range_length in Hlen.
      destruct (Hpos (String.length word) Hlen) as (total & Htotal & Hgt); [by eauto|].
      rewrite Hprob in Htotal. injection Htotal as <-. lia.
  - intros word x Hin Hlen.
    destruct (Hpos (String.length word) Hlen) as (total & Htotal & Hgt); [by eauto|].
    exists total. split; [done|]. unfold float_truediv_int.
    destruct (float_of_int total) as [t|e] eqn:Ht.
    + destruct (total =? 0) eqn:Hz; [Zbool; lia|done].
    + apply float_of_int_Raise in Ht as ->. done.
Qed.

(** *** What add_profile keeps *)

Lemma add_profile_langlist profile index langsize self self' :
  add_profile profile index langsize self = (self', Return tt) →
  (name profile ∉ langlist self)
  ∧ langlist self' = langlist self ++ [name profile].
Proof.
  rewrite add_profile_unfold. case_decide; [done|]. intros Hloop.
  split; [done|].
  pose proof (add_words_langlist profile index langsize
                (dict_keys (freq profile))
                (set_langlist (langlist self ++ [name profile]) self)) as Hl.
  by rewrite Hloop in Hl.
Qed.

Lemma add_word_vectors_of_length profile index langsize word n self :
  Z.to_nat langsize = n →
  vectors_of_length n self →
  vectors_of_length n (add_word profile index langsize word self).1.
Proof.
  intros Hn Hself w vec Hw.
  destruct (decide (w = word)) as [-> | Hne].
  - destruct (add_word_lookup_length profile index langsize word self)
      as (vec' & Hvec' & Hlen).
    rewrite Hvec' in Hw. injection Hw as ->. rewrite Hlen.
    unfold start_vector.
    destruct (word_lang_prob_map self !! word) as [old|] eqn:Hold; cbn.
    + by eapply Hself.
    + unfold py_repeat. by rewrite length_replicate.
  - rewrite add_word_lookup_ne in Hw by done. by eapply Hself.
Qed.

Lemma add_words_vectors_of_length profile index langsize keys n self :
  Z.to_nat langsize = n →
  vectors_of_length n self →
  vectors_of_length n (for_each keys (add_word profile index langsize) self).1.
Proof.
  intros Hn. revert self. induction keys as [|k keys IH]; intros self Hself; [done|].
  cbn [for_each]. unfold bind.
  pose proof (add_word_vectors_of_length profile index langsize k n self Hn Hself) as Hk.
  destruct (add_word _ _ _ k self) as [self1 [[]|e]]; cbn in *; [|done].
  by apply IH.
Qed.

(** Vectors keep their length through [add_profile], whatever it yields. *)
Lemma add_profile_vectors_of_length profile index langsize n self :
  Z.to_nat langsize = n →
  vectors_of_length n self →
  vectors_of_length n (add_profile profile index langsize self).1.
Proof.
  intros Hn Hself. rewrite add_profile_unfold. case_decide; [done|].
  by apply add_words_vectors_of_length.
Qed.

(** A returning [add_profile] with index [k] leaves every slot but [k] of
    the vectors that were there. *)
Lemma add_profile_other_slots profile (k : nat) langsize self self' word vec i :
  add_profile profile (Z.of_nat k) langsize self = (self', Return tt) →
  word_lang_prob_map self !! word = Some vec →
  i ≠ k →
  ∃ vec', word_lang_prob_map self' !! word = Some vec' ∧ vec' !! i = vec !! i.
Proof.
  rewrite add_profile_unfold. case_decide; [done|]. intros Hloop Hvec Hi.
  destruct (decide (word ∈ dict_keys (freq profile))) as [Hin | Hnin].
  - pose proof (add_words_lookup_in _ _ _ _ _ _ _ Hloop Hin) as Hw.
    unfold start_vector in Hw. cbn in Hw. rewrite Hvec in Hw. cbn in Hw.
    destruct (in_range word).
    + destruct Hw as (prob & pos & _ & Hpos & Hvec').
      apply py_index_nonneg in Hpos; [|lia]. rewrite Nat2Z.id in Hpos. subst pos.
      eexists. split; [done|]. by rewrite list_lookup_insert_ne.
    + by eexists.
  - pose proof (add_words_lookup_notin profile (Z.of_nat k) langsize _
                  (set_langlist (langlist self ++ [name profile]) self) word Hnin) as Hw.
    rewrite Hloop in Hw. cbn in Hw. eexists. by rewrite Hw, Hvec.
Qed.

(** A returning [add_profile] with index [k] leaves the probability of
    each key of the profile in slot [k] of the key's vector. *)
Lemma add_profile_own_slot profile (k : nat) langsize self self' word :
  add_profile profile (Z.of_nat k) langsize self = (self', Return tt) →
  word ∈ dict_keys (freq profile) →
  in_range word = true →
  ∃ vec prob,
    word_lang_prob_map self' !! word = Some vec
    ∧ probability profile word (Z.of_nat (String.length word)) = Return prob
    ∧ vec !! k = Some prob.
Proof.
  rewrite add_profile_unfold. case_decide; [done|]. intros Hloop Hin Hlen.
  pose proof (add_words_lookup_in _ _ _ _ _ _ _ Hloop Hin) as Hw.
  rewrite Hlen in Hw. destruct Hw as (prob & pos & Hprob & Hpos & Hvec).
  pose proof (py_index_lt _ _ _ Hpos) as Hlt.
  apply py_index_nonneg in Hpos; [|lia]. rewrite Nat2Z.id in Hpos. subst pos.
  eexists _, prob. split; [done|]. split; [done|].
  by rewrite list_lookup_insert_eq.
Qed.

(** ** load_json_profile *)

(** One turn of the loop: a well-formed text whose profile is added, or a
    [FormatError]. *)
Lemma json_turn profile_text index langsize self :
  try_except
    (let* profile := lift (parse_profile profile_text) in
     add_profile profile index langsize)
    (λ _, raise (LangDetectException FormatError)) self
  = match profile_text with
    | Malformed => (self, Raise (LangDetectException FormatError))
    | WellFormed profile =>
      match add_profile profile index langsize self with
      | (self', Return a) => (self', Return a)
      | (self', Raise _) => (self', Raise (LangDetectException FormatError))
      end
    end.
Proof.
  unfold try_except, bind, lift, raise. destruct profile_text as [|profile]; [done|].
  cbn. by destruct (add_profile profile index langsize self) as [self' [a|e]].
Qed.

Lemma load_json_loop_cons profile_text rest index langsize self :
  load_json_loop (profile_text :: rest) index langsize self
  = match profile_text with
    | Malformed => (self, Raise (LangDetectException FormatError))
    | WellFormed profile =>
      match add_profile profile index langsize self with
      | (self', Return _) => load_json_loop rest (index + 1) langsize self'
      | (self', Raise _) => (self', Raise (LangDetectException FormatError))
      end
    end.
Proof.
  cbn [load_json_loop]. unfold bind at 1. rewrite json_turn.
  destruct profile_text as [|profile]; [done|].
  by destruct (add_profile _ _ _ _) as [self' [a|e]].
Qed.

Lemma load_json_loop_app before after index langsize self :
  load_json_loop (before ++ after) index langsize self
  = bind (load_json_loop before index langsize)
      (λ _, load_json_loop after (index + Z.of_nat (length before)) langsize) self.
Proof.
  revert index self. induction before as [|j before IH]; intros index self.
  - cbn. by rewrite Z.add_0_r.
  - rewrite <- app_comm_cons, !load_json_loop_cons. unfold bind at 1.
    rewrite load_json_loop_cons.
    destruct j as [|profile]; [done|].
    destruct (add_profile _ _ _ _) as [self1 [[]|e]]; [|done].
    rewrite IH. unfold bind. cbn [length].
    by replace (index + 1 + Z.of_nat (length before))
      with (index + Z.of_nat (S (length before))) by lia.
Qed.

(** The loop raises nothing but [FormatError]. *)
Lemma load_json_loop_Raise json_profiles index langsize self self' e :
  load_json_loop json_profiles index langsize self = (self', Raise e) →
  e = LangDetectException FormatError.
Proof.
  revert index self. induction json_profiles as [|j rest IH]; intros index self; [done|].
  rewrite load_json_loop_cons. destruct j as [|profile]; [congruence|].
  destruct (add_profile _ _ _ _) as [self1 [[]|e1]]; [by apply IH|congruence].
Qed.

Lemma load_json_loop_vectors_of_length json_profiles index langsize n self :
  Z.to_nat langsize = n →
  vectors_of_length n self →
  vectors_of_length n (load_json_loop json_profiles index langsize self).1.
Proof.
  intros Hn. revert index self.
  induction json_profiles as [|j rest IH]; intros index self Hself; [done|].
  rewrite load_json_loop_cons. destruct j as [|profile]; [done|].
  pose proof (add_profile_vectors_of_length profile index langsize n self Hn Hself) as H1.
  destruct (add_profile _ _ _ _) as [self1 [[]|e1]]; [by apply IH|done].
Qed.

(** A loop that returns, started with index [k]: the texts were
    well-formed profiles; their names, all different and none of them in
    [langlist] before, were appended to [langlist] in the order presented;
    the probabilities of the [j]-th of them are in slot [k + j]; and the
    slots below [k] are as they were. *)
Lemma load_json_loop_Return json_profiles (k : nat) langsize self self' :
  load_json_loop json_profiles (Z.of_nat k) langsize self = (self', Return tt) →
  ∃ profiles,
    json_profiles = WellFormed <$> profiles
    ∧ langlist self' = langlist self ++ (name <$> profiles)
    ∧ NoDup (name <$> profiles)
    ∧ (∀ x, x ∈ langlist self → x ∉ name <$> profiles)
    ∧ (∀ j profile word,
         profiles !! j = Some profile →
         word ∈ dict_keys (freq profile) →
         in_range word = true →
         ∃ vec prob,
           word_lang_prob_map self' !! word = Some vec
           ∧ probability profile word (Z.of_nat (String.length word)) = Return prob
           ∧ vec !! (k + j)%nat = Some prob)
    ∧ (∀ word vec i,
         word_lang_prob_map self !! word = Some vec →
         (i < k)%nat →
         ∃ vec', word_lang_prob_map self' !! word = Some vec' ∧ vec' !! i = vec !! i).
Proof.
  revert k self. induction json_profiles as [|j rest IH]; intros k self.
  - intros [= <-]. exists []. cbn. rewrite app_nil_r.
    repeat split; [constructor|by intros; apply not_elem_of_nil|done|by eauto].
  - rewrite load_json_loop_cons. destruct j as [|profile]; [done|].
    destruct (add_profile _ _ _ _) as [self1 [[]|e1]] eqn:Hadd; [|done].
    replace (Z.of_nat k + 1) with (Z.of_nat (S k)) by lia.
    intros (profiles & -> & Hlang & Hnodup & Hnew & Hslots & Hkeep)%IH.
    destruct (add_profile_langlist _ _ _ _ _ Hadd) as [Hfresh Hl1].
    exists (profile :: profiles). split; [done|].
    split; [by rewrite Hlang, Hl1, <- app_assoc|].
    assert (name profile ∉ name <$> profiles) as Hhead.
    { apply Hnew. rewrite Hl1. set_solver. }
    split; [by cbn; constructor|].
    split.
    { intros x Hx. cbn. apply not_elem_of_cons. split; [by intros ->|].
      apply Hnew. rewrite Hl1. set_solver. }
    split.
    + intros [|j] profile' word Hj Hin Hlen; cbn in Hj.
      * injection Hj as <-.
        destruct (add_profile_own_slot _ _ _ _ _ _ Hadd Hin Hlen)
          as (vec & prob & Hvec & Hprob & Hk).
        destruct (Hkeep word vec k Hvec) as (vec' & Hvec' & Hk'); [lia|].
        exists vec', prob. rewrite Nat.add_0_r. by rewrite Hk'.
      * destruct (Hslots j profile' word Hj Hin Hlen) as (vec & prob & ? & ? & Hk).
        exists vec, prob. by rewrite Nat.add_succ_r.
    + intros word vec i Hvec Hi.
      destruct (add_profile_other_slots _ _ _ _ _ _ _ i Hadd Hvec)
        as (vec1 & Hvec1 & H1); [lia|].
      destruct (Hkeep word vec1 i Hvec1) as (vec' & Hvec' & H'); [lia|].
      exists vec'. by rewrite H', H1.
Qed.

(** ** load_profile *)

(** What the [try] statement of the loop makes of a path. *)
Lemma file_turn filename index langsize self :
  try_except
    (let* json_data := lift (open_file filename) in
     let* profile := lift (parse_profile json_data) in
     add_profile profile index langsize)
    (λ e, match e with
          | OSError => raise (LangDetectException FileLoadError)
          | _ => raise (LangDetectException FormatError)
          end) self
  = match filename with
    | Some (File (Text (WellFormed profile))) =>
      match add_profile profile index langsize self with
      | (self', Return a) => (self', Return a)
      | (self', Raise e) =>
        (self', Raise (LangDetectException
                         match e with OSError => FileLoadError | _ => FormatError end))
      end
    | Some (File (Text Malformed)) => (self, Raise (LangDetectException FormatError))
    | _ => (self, Raise (LangDetectException FileLoadError))
    end.
Proof.
  unfold try_except, bind, lift, raise.
  destruct filename as [[[|[|profile]]|entries]|]; cbn -[add_profile]; try done.
  destruct (add_profile profile index langsize self) as [self' [a|e]]; [done|].
  by destruct e.
Qed.

Lemma load_profile_loop_cons profile_directory filename rest index langsize self :
  load_profile_loop profile_directory (filename :: rest) index langsize self
  = if loaded_file profile_directory filename then
      match path_join profile_directory filename with
      | Some (File (Text (WellFormed profile))) =>
        match add_profile profile index langsize self with
        | (self', Return _) =>
          load_profile_loop profile_directory rest (index + 1) langsize self'
        | (self', Raise e) =>
          (self', Raise (LangDetectException
                           match e with OSError => FileLoadError | _ => FormatError end))
        end
      | Some (File (Text Malformed)) => (self, Raise (LangDetectException FormatError))
      | _ => (self, Raise (LangDetectException FileLoadError))
      end
    else load_profile_loop profile_directory rest index langsize self.
Proof.
  cbn [load_profile_loop]. unfold loaded_file.
  destruct (startswith_dot filename); [done|].
  destruct (path_isfile _) eqn:Hfile; [|done].
  cbn [negb andb]. unfold bind at 1. rewrite file_turn.
  destruct (path_join _ _) as [[[|[|profile]]|entries]|]; try done.
  by destruct (add_profile _ _ _ _) as [self' [[]|e]].
Qed.

(** The loop raises nothing but [FileLoadError] and [FormatError]. *)
Lemma load_profile_loop_Raise profile_directory list_files index langsize self self' e :
  load_profile_loop profile_directory list_files index langsize self = (self', Raise e) →
  e = LangDetectException FileLoadError ∨ e = LangDetectException FormatError.
Proof.
  revert index self. induction list_files as [|filename rest IH]; intros index self; [done|].
  rewrite load_profile_loop_cons.
  destruct (loaded_file _ _); [|by apply IH].
  destruct (path_join _ _) as [[[|[|profile]]|entries]|];
    try (intros [= <- <-]; by auto).
  destruct (add_profile _ _ _ _) as [self1 [[]|e1]]; [by apply IH|].
  intros [= <- <-]. destruct e1; by auto.
Qed.

Lemma load_profile_loop_vectors_of_length
    profile_directory list_files index langsize n self :
  Z.to_nat langsize = n →
  vectors_of_length n self →
  vectors_of_length n
    (load_profile_loop profile_directory list_files index langsize self).1.
Proof.
  intros Hn. revert index self.
  induction list_files as [|filename rest IH]; intros index self Hself; [done|].
  rewrite load_profile_loop_cons.
  destruct (loaded_file _ _); [|by apply IH].
  destruct (path_join _ _) as [[[|[|profile]]|entries]|]; try done.
  pose proof (add_profile_vectors_of_length profile index langsize n self Hn Hself) as H1.
  destruct (add_profile _ _ _ _) as [self1 [[]|e1]]; [by apply IH|done].
Qed.

(** A loop that returns added one language for each name it did not skip. *)
Lemma load_profile_loop_langlist profile_directory list_files index langsize self self' :
  load_profile_loop profile_directory list_files index langsize self = (self', Return tt) →
  length (langlist self')
  = (length (langlist self) + length (filter (loaded_file profile_directory) list_files))%nat.
Proof.
  revert index self. induction list_files as [|filename rest IH]; intros index self.
  - intros [= <-]. cbn. lia.
  - rewrite load_profile_loop_cons.
    destruct (loaded_file _ _) eqn:Hloaded.
    + rewrite filter_cons_True by (by apply Is_true_true_2).
      destruct (path_join _ _) as [[[|[|profile]]|entries]|]; try done.
      destruct (add_profile _ _ _ _) as [self1 [[]|e1]] eqn:Hadd; [|done].
      intros ->%IH. apply add_profile_langlist in Hadd as [_ ->].
      rewrite length_app. cbn. lia.
    + rewrite filter_cons_False by (by apply Is_true_false_2).
      apply IH.
Qed.

(** ** The loaders, from a new factory *)

Lemma vectors_of_length_new n : vectors_of_length n new_factory.
Proof. intros word vec Hvec. cbn in Hvec. by rewrite lookup_empty in Hvec. Qed.

(** The two vector lengths that differ for [sample_directory]: three
    names are listed, two languages are loaded. *)
Lemma load_profile_vectors_longer :
  let r := load_profile sample_now sample_directory "classic" new_factory in
  r.2 = Return tt
  ∧ langlist r.1 = ["en"; "fr"]%string
  ∧ word_lang_prob_map r.1 !! "th"%string
    = Some [(1 * 100 / 180)%float; 0%float; 0%float].
Proof. cbv zeta. repeat split; vm_compute; reflexivity. Qed.

(** C2, amended: after [load_json_profile] returns on a new factory,
    every vector of [word_lang_prob_map] has as many slots as [langlist]
    has languages.  After [load_profile] returns on a new factory, every
    vector has as many slots as the directory listing has names; the
    languages are as many as the names that were not skipped, so the two
    numbers agree when no name was skipped. *)
Theorem load_vectors_of_length :
  (∀ json_profiles self',
     load_json_profile json_profiles new_factory = (self', Return tt) →
     vectors_of_length (length (langlist self')) self'
     ∧ length (langlist self') = length json_profiles)
  ∧ (∀ now profile_directory mode self',
       load_profile now profile_directory mode new_factory = (self', Return tt) →
       ∃ directory list_files,
         profile_listing now profile_directory mode = Return (directory, list_files)
         ∧ vectors_of_length (length list_files) self'
         ∧ length (langlist self') = length (filter (loaded_file directory) list_files)
         ∧ (length (langlist self') ≤ length list_files)%nat
         ∧ (Forall (λ f, loaded_file directory f = true) list_files →
            vectors_of_length (length (langlist self')) self')).
Proof.
  split.
  - intros json_profiles self'. unfold load_json_profile.
    destruct (_ <? 2); [done|]. intros Hloop.
    pose proof (load_json_loop_vectors_of_length json_profiles 0
                  (Z.of_nat (length json_profiles)) (length json_profiles) new_factory
                  (Nat2Z.id _) (vectors_of_length_new _)) as Hvec.
    rewrite Hloop in Hvec. cbn in Hvec.
    apply (load_json_loop_Return _ 0%nat) in Hloop as (profiles & -> & Hlang & _).
    cbn in Hlang. rewrite Hlang, !length_fmap in *. done.
  - intros now profile_directory mode self'. unfold load_profile, bind, lift.
    destruct (profile_listing _ _ _) as [[directory list_files]|e]; [|done]. cbn.
    destruct list_files as [|filename rest] eqn:Hfiles; [done|]. rewrite <- Hfiles.
    intros Hloop. exists directory, list_files. split; [done|].
    pose proof (load_profile_loop_vectors_of_length directory list_files 0
                  (Z.of_nat (length list_files)) (length list_files) new_factory
                  (Nat2Z.id _) (vectors_of_length_new _)) as Hvec.
    rewrite Hloop in Hvec. cbn in Hvec.
    apply load_profile_loop_langlist in Hloop. cbn in Hloop.
    split; [done|]. split; [done|].
    split; [rewrite Hloop; apply length_filter|].
    intros Hall. rewrite Hloop.
    assert (filter (loaded_file directory) list_files = list_files) as ->; [|done].
    clear -Hall. induction Hall as [|f l Hf _ IH]; [done|].
    rewrite filter_cons_True by (by apply Is_true_true_2). by rewrite IH.
Qed.

(** C6: when [load_json_profile] returns on a new factory, the texts
    presented were profiles of different languages, [langlist] lists
    their names in the order presented, so that the language of the
    profile presented at position [i] has index [i]; and slot [i] of the
    vector of each of its keys of length 1 to 3 holds that profile's
    probability of the key. *)
Theorem load_json_profile_index_order json_profiles self' :
  load_json_profile json_profiles new_factory = (self', Return tt) →
  ∃ profiles,
    json_profiles = WellFormed <$> profiles
    ∧ NoDup (name <$> profiles)
    ∧ langlist self' = name <$> profiles
    ∧ ∀ i profile,
        profiles !! i = Some profile →
        langlist self' !! i = Some (name profile)
        ∧ ∀ word,
            word ∈ dict_keys (freq profile) →
            (1 ≤ String.length word ≤ 3)%nat →
            ∃ vec prob,
              word_lang_prob_map self' !! word = Some vec
              ∧ probability profile word (Z.of_nat (String.length word)) = Return prob
              ∧ vec !! i = Some prob.
Proof.
  unfold load_json_profile. destruct (_ <? 2); [done|].
  intros (profiles & -> & Hlang & Hnodup & _ & Hslots & _)%(load_json_loop_Return _ 0%nat).
  cbn in Hlang. exists profiles. do 3 (split; [done|]).
  intros i profile Hi. split.
  - rewrite Hlang, list_lookup_fmap. by rewrite Hi.
  - intros word Hin Hlen%in_range_length. by apply (Hslots i profile word).
Qed.

(** ** Too few profiles *)

Lemma py_int_Raise x e : py_int x = Raise e → e = ValueError.
Proof.
  unfold py_int. repeat case_match; congruence.
Qed.

Lemma ints_of_Raise options e : ints_of options = Raise e → e = ValueError.
Proof.
  induction options as [|x rest IH]; [done|]. cbn.
  destruct (py_int x) eqn:Hx; [|intros [= <-]; by eapply py_int_Raise].
  destruct (ints_of rest); [done|]. intros [= <-]. by apply IH.
Qed.

Lemma first_not_after_Raise current_datetime l e :
  first_not_after current_datetime l = Raise e → e = NameError ∨ e = ValueError.
Proof.
  induction l as [|z l IH]; cbn; [intros [= <-]; by left|].
  destruct (py_int _) eqn:Hc; [|intros [= <-]; right; by eapply py_int_Raise].
  repeat case_match; try done.
Qed.

Lemma get_best_timehash_Raise now options e :
  get_best_timehash now options = Raise e → e = NameError ∨ e = ValueError.
Proof.
  unfold get_best_timehash.
  destruct (ints_of options) eqn:Hints; [apply first_not_after_Raise|].
  intros [= <-]. right. by eapply ints_of_Raise.
Qed.

Lemma os_listdir_Raise p e : os_listdir p = Raise e → e = OSError.
Proof. unfold os_listdir. repeat case_match; congruence. Qed.

(** Finding the directory to load from raises no [LangDetectException]. *)
Lemma profile_listing_Raise now profile_directory mode e :
  profile_listing now profile_directory mode = Raise e →
  e = OSError ∨ e = NameError ∨ e = ValueError.
Proof.
  unfold profile_listing. case_decide.
  - destruct (os_listdir _) eqn:H1; [done|].
    intros [= <-]. left. by eapply os_listdir_Raise.
  - destruct (os_listdir profile_directory) eqn:H1.
    2:{ intros [= <-]. left. by eapply os_listdir_Raise. }
    destruct (get_best_timehash _ _) eqn:H2.
    2:{ intros [= <-]. right. by eapply get_best_timehash_Raise. }
    destruct (os_listdir (path_join _ _)) eqn:H3; [done|].
    intros [= <-]. left. by eapply os_listdir_Raise.
Qed.

(** A directory with a single profile is loaded. *)
Lemma load_profile_single_directory :
  let r := load_profile sample_now single_directory "classic" new_factory in
  r.2 = Return tt ∧ langlist r.1 = ["en"]%string.
Proof. cbv zeta. split; vm_compute; reflexivity. Qed.

(** C4, amended: [load_json_profile] with fewer than 2 JSON profiles
    raises the exception with code [NeedLoadProfileError] and changes
    nothing; [load_profile] raises it exactly when the listing of the
    directory it loads from is empty, and then changes nothing. *)
Theorem need_load_profile_error :
  (∀ json_profiles self,
     (length json_profiles < 2)%nat →
     load_json_profile json_profiles self
     = (self, Raise (LangDetectException NeedLoadProfileError)))
  ∧ (∀ now profile_directory mode self self',
       load_profile now profile_directory mode self
       = (self', Raise (LangDetectException NeedLoadProfileError))
       ↔ self' = self
         ∧ ∃ directory,
             profile_listing now profile_directory mode = Return (directory, [])).
Proof.
  split.
  - intros json_profiles self Hlen. unfold load_json_profile.
    destruct (_ <? 2) eqn:Hlt; [done|]. Zbool. lia.
  - intros now profile_directory mode self self'. unfold load_profile, bind, lift, raise.
    destruct (profile_listing _ _ _) as [[directory list_files]|e] eqn:Hlisting; cbn.
    + destruct list_files as [|filename rest].
      * split; [intros [= <-]; by eauto|]. by intros [-> _].
      * split.
        -- intros [?|?]%load_profile_loop_Raise; done.
        -- intros [_ [d [=]]].
    + apply profile_listing_Raise in Hlisting.
      split; [|by intros [_ [d [=]]]].
      intros [= _ ->]. by destruct Hlisting as [?|[?|?]].
Qed.

(** ** A malformed record *)

(** What [add_profile] does to [langlist], whatever it yields. *)
Lemma add_profile_langlist_any profile index langsize self :
  langlist (add_profile profile index langsize self).1
  = if decide (name profile ∈ langlist self)
    then langlist self
    else langlist self ++ [name profile].
Proof.
  rewrite add_profile_unfold. case_decide; [done|]. by rewrite add_words_langlist.
Qed.

Lemma add_profile_prefix profile index langsize self :
  langlist self `prefix_of` langlist (add_profile profile index langsize self).1.
Proof.
  rewrite add_profile_langlist_any. case_decide; [done|]. by apply prefix_app_r.
Qed.

(** A turn of the loop of [add_profile] with index [k], whatever it
    yields, leaves every slot but [k] of the vectors that were there. *)
Lemma add_word_other_slots profile (k : nat) langsize word self w vec i :
  word_lang_prob_map self !! w = Some vec →
  i ≠ k →
  ∃ vec',
    word_lang_prob_map (add_word profile (Z.of_nat k) langsize word self).1 !! w
    = Some vec'
    ∧ vec' !! i = vec !! i.
Proof.
  intros Hvec Hi.
  destruct (decide (w = word)) as [-> | Hne].
  2:{ exists vec. by rewrite add_word_lookup_ne. }
  rewrite add_word_unfold; cbv zeta.
  assert (start_vector langsize word self = vec) as ->.
  { unfold start_vector. by rewrite Hvec. }
  destruct (in_range word); [|by exists vec; cbn; rewrite lookup_insert_eq].
  destruct (probability _ _ _) as [prob|e];
    [|by exists vec; cbn; rewrite lookup_insert_eq].
  unfold py_setitem. destruct (py_index vec (Z.of_nat k)) as [pos|] eqn:Hpos;
    [|by exists vec; cbn; rewrite lookup_insert_eq].
  apply py_index_nonneg in Hpos; [|lia]. rewrite Nat2Z.id in Hpos. subst pos.
  eexists. cbn. rewrite lookup_insert_eq. split; [done|].
  by rewrite list_lookup_insert_ne.
Qed.

Lemma add_words_other_slots profile (k : nat) langsize keys self w vec i :
  word_lang_prob_map self !! w = Some vec →
  i ≠ k →
  ∃ vec',
    word_lang_prob_map (for_each keys (add_word profile (Z.of_nat k) langsize) self).1
    !! w = Some vec'
    ∧ vec' !! i = vec !! i.
Proof.
  intros Hvec Hi. revert self vec Hvec.
  induction keys as [|word keys IH]; intros self vec Hvec; [by exists vec|].
  cbn [for_each]. unfold bind.
  destruct (add_word_other_slots profile k langsize word self w vec i Hvec Hi)
    as (vec1 & Hvec1 & H1).
  destruct (add_word _ _ _ word self) as [self1 [[]|e]]; cbn in Hvec1.
  - destruct (IH self1 vec1 Hvec1) as (vec' & Hvec' & H'). exists vec'.
    split; [done|]. by rewrite H', H1.
  - by exists vec1.
Qed.

(** [add_profile] with index [k], whether it returns or raises, leaves
    every slot but [k] of the vectors that were there. *)
Lemma add_profile_other_slots_any profile (k : nat) langsize self w vec i :
  word_lang_prob_map self !! w = Some vec →
  i ≠ k →
  ∃ vec',
    word_lang_prob_map (add_profile profile (Z.of_nat k) langsize self).1 !! w
    = Some vec'
    ∧ vec' !! i = vec !! i.
Proof.
  intros Hvec Hi. rewrite add_profile_unfold. case_decide; [by exists vec|].
  by apply add_words_other_slots.
Qed.

(** The first profile stays loaded when the second text is malformed; and
    a first profile that fails on a zero total leaves its name in
    [langlist] and a vector for its key. *)
Lemma load_json_profile_keeps_earlier :
  (let r := load_json_profile [WellFormed sample_en; Malformed] new_factory in
   r.2 = Raise (LangDetectException FormatError)
   ∧ langlist r.1 = ["en"]%string
   ∧ word_lang_prob_map r.1 !! "th"%string = Some [(1 * 100 / 180)%float; 0%float])
  ∧ (let r := load_json_profile [WellFormed sample_zz; WellFormed sample_fr]
                new_factory in
     r.2 = Raise (LangDetectException FormatError)
     ∧ langlist r.1 = ["zz"]%string
     ∧ word_lang_prob_map r.1 !! "ab"%string = Some [0%float; 0%float]).
Proof. cbv zeta. repeat split; vm_compute; reflexivity. Qed.

(** C5, amended: when the texts before a record are loaded without error
    and the record makes the loop fail, be it a text that cannot be read
    as a profile or a profile on which [add_profile] raises,
    [load_json_profile] raises the exception with code [FormatError] and
    stops there, and nothing is undone.  The texts after the record are
    not looked at.  The profiles before it stay added: their names stay in
    [langlist], in order, and the slots of the vectors other than the
    record's own keep what they held.  The record itself leaves nothing
    when its text cannot be read or its language is already in
    [langlist]; otherwise its name has been appended to [langlist] before
    the failure. *)
Theorem load_json_profile_malformed before bad after self self1 self2 e :
  let json_profiles := before ++ bad :: after in
  let langsize := Z.of_nat (length json_profiles) in
  (2 ≤ length json_profiles)%nat →
  load_json_loop before 0 langsize self = (self1, Return tt) →
  load_json_loop [bad] (Z.of_nat (length before)) langsize self1 = (self2, Raise e) →
  load_json_profile json_profiles self
  = (self2, Raise (LangDetectException FormatError))
  ∧ (∃ profiles,
       before = WellFormed <$> profiles
       ∧ langlist self1 = langlist self ++ (name <$> profiles))
  ∧ langlist self1 `prefix_of` langlist self2
  ∧ (∀ word vec i,
       word_lang_prob_map self1 !! word = Some vec →
       i ≠ length before →
       ∃ vec', word_lang_prob_map self2 !! word = Some vec' ∧ vec' !! i = vec !! i)
  ∧ match bad with
    | Malformed => self2 = self1
    | WellFormed profile =>
      if decide (name profile ∈ langlist self1)
      then self2 = self1
      else langlist self2 = langlist self1 ++ [name profile]
    end.
Proof.
  intros json_profiles langsize Hlen Hbefore Hbad.
  rewrite load_json_loop_cons in Hbad.
  assert (load_json_loop (bad :: after) (Z.of_nat (length before)) langsize self1
          = (self2, Raise (LangDetectException FormatError))
          ∧ self2 = match bad with
                    | Malformed => self1
                    | WellFormed profile =>
                      (add_profile profile (Z.of_nat (length before)) langsize self1).1
                    end) as [Hloop Hself2].
  { rewrite load_json_loop_cons. destruct bad as [|profile].
    - injection Hbad as <- _. done.
    - destruct (add_profile _ _ _ _) as [s [[]|e1]]; [done|].
      injection Hbad as <- _. done. }
  split.
  { unfold load_json_profile. fold langsize.
    destruct (_ <? 2) eqn:Hlt; [Zbool; lia|].
    subst json_profiles. rewrite load_json_loop_app. unfold bind.
    rewrite Hbefore. by rewrite Z.add_0_l. }
  split.
  { apply (load_json_loop_Return _ 0%nat) in Hbefore
      as (profiles & -> & Hlang & _). by exists profiles. }
  destruct bad as [|profile]; subst self2.
  - split; [done|]. split; [by eauto|done].
  - split; [apply add_profile_prefix|].
    split; [intros word vec i Hvec Hi; by apply add_profile_other_slots_any|].
    pose proof (add_profile_langlist_any profile (Z.of_nat (length before))
                  langsize self1) as Hlang.
    rewrite add_profile_unfold in *. by case_decide.
Qed.

(** ** create *)

(** C8: on a factory whose [langlist] is empty, [_create_detector], and
    [create] through it, raise the exception with code
    [NeedLoadProfileError]; on a factory with a language loaded they
    return a detector.  Neither changes the factory. *)
Theorem create_needs_profiles self alpha :
  (langlist self = [] →
   _create_detector self = (self, Raise (LangDetectException NeedLoadProfileError))
   ∧ create alpha self = (self, Raise (LangDetectException NeedLoadProfileError)))
  ∧ (langlist self ≠ [] →
     _create_detector self = (self, Return (Detector_init self))
     ∧ ∃ detector, create alpha self = (self, Return detector)).
Proof.
  unfold create, _create_detector, bind, get_self, raise, ret. split.
  - by intros ->.
  - intros Hne. destruct (langlist self) as [|lang rest]; [done|].
    split; [done|]. destruct alpha; by eexists.
Qed.

(** ** get_lang_list *)

(** A factory object stands for the same factory in two heaps that agree
    on its two references. *)
Lemma factory_of_agree h h' self :
  h' !! langlist_ref self = h !! langlist_ref self →
  h' !! word_lang_prob_map_ref self = h !! word_lang_prob_map_ref self →
  factory_of h' self = factory_of h self.
Proof. unfold factory_of. by intros -> ->. Qed.

Lemma mutate_list_lookup_ne r f (h : gmap positive object) l :
  l ≠ r → mutate_list r f h !! l = h !! l.
Proof.
  intros Hne. unfold mutate_list.
  destruct (h !! r) as [[items|table]|]; [|done|done].
  by rewrite lookup_insert_ne.
Qed.

Lemma mutations_lookup_ne r fs (h : gmap positive object) l :
  l ≠ r → foldl (λ h f, mutate_list r f h) h fs !! l = h !! l.
Proof.
  intros Hne. revert h. induction fs as [|f fs IH]; intros h; [done|].
  cbn. by rewrite IH, mutate_list_lookup_ne.
Qed.

(** C10: [get_lang_list] returns a list object that was not in the heap
    before, holding the items of the factory's [langlist] in order; and
    whatever mutations are then made to the returned object, the factory
    object still stands for the same [langlist] and
    [word_lang_prob_map]. *)
Theorem get_lang_list_fresh_copy h self factory :
  factory_of h self = Some factory →
  ∃ h' r,
    get_lang_list self h = Some (h', r)
    ∧ h !! r = None
    ∧ h' !! r = Some (ListObject (langlist factory))
    ∧ factory_of h' self = Some factory
    ∧ ∀ mutations,
        factory_of (foldl (λ h f, mutate_list r f h) h' mutations) self
        = Some factory.
Proof.
  unfold get_lang_list, list_copy. intros Hself.
  pose proof Hself as Hobj. unfold factory_of in Hobj.
  destruct (h !! langlist_ref self) as [[items|]|] eqn:Hl; [|done|done].
  destruct (h !! word_lang_prob_map_ref self) as [[|table]|] eqn:Ht; [done| |done].
  injection Hobj as <-. cbn [langlist].
  set (r := fresh (dom h)).
  assert (h !! r = None) as Hfresh by (apply not_elem_of_dom, is_fresh).
  assert (r ≠ langlist_ref self) as Hrl by congruence.
  assert (r ≠ word_lang_prob_map_ref self) as Hrt by congruence.
  exists (<[r := ListObject items]> h), r.
  split; [done|]. split; [done|]. split; [by rewrite lookup_insert_eq|].
  assert (factory_of (<[r := ListObject items]> h) self = factory_of h self) as Hsame.
  { apply factory_of_agree; by rewrite lookup_insert_ne. }
  split; [by rewrite Hsame|].
  intros mutations. rewrite <- Hself, <- Hsame.
  apply factory_of_agree; by rewrite mutations_lookup_ne.
Qed.

(** ** get_best_timehash *)

(** C7: the timestamps are compared as the ints of their MMDDYYYYHHMM
    digits, month first, which is not the order of time.  On 1 February
    2025 the directory of 1 December 2020, a past moment, is refused and
    [NameError] is raised; the directory of 31 January 2030, a moment to
    come, is returned. *)
Theorem get_best_timehash_month_first :
  not_later (datetime_of_timehash 120120201200) sample_now = true
  ∧ get_best_timehash sample_now ["120120201200"%string] = Raise NameError
  ∧ not_later (datetime_of_timehash 13120301200) sample_now = false
  ∧ get_best_timehash sample_now ["013120301200"%string]
    = Return "013120301200"%string.
Proof. repeat split; vm_compute; reflexivity. Qed.

(** ** When the loaders return *)

Lemma dict_get_keys {V} (d : list (string * V)) word :
  word ∈ dict_keys d → is_Some (dict_get d word).
Proof.
  unfold dict_keys. induction d as [|[k v] d IH]; cbn.
  - by intros ?%elem_of_nil.
  - intros [->|Hin]%elem_of_cons; case_decide; by eauto.
Qed.

Lemma probability_defined profile word :
  probabilities_defined profile →
  word ∈ dict_keys (freq profile) →
  in_range word = true →
  ∃ prob, probability profile word (Z.of_nat (String.length word)) = Return prob.
Proof.
  intros Hdef [count Hcount]%dict_get_keys Hlen.
  destruct (Hdef word count Hcount Hlen) as (total & c & t & Htotal & Hnz & Hc & Ht).
  apply in_range_length in Hlen.
  unfold probability, float_mul_int, float_truediv_int, py_getitem, py_index.
  rewrite Hcount, Hc.
  apply lookup_lt_Some in Htotal as Hlt.
  destruct (_ && _) eqn:Hin; [|Zbool; lia].
  replace (Z.to_nat (Z.of_nat (String.length word) - 1))
    with (String.length word - 1)%nat by lia.
  rewrite Htotal, Ht.
  destruct (total =? 0) eqn:Hz; [Zbool; lia|]. by eexists.
Qed.

Lemma add_words_Return profile (k : nat) langsize keys self :
  probabilities_defined profile →
  (k < Z.to_nat langsize)%nat →
  vectors_of_length (Z.to_nat langsize) self →
  keys ⊆ dict_keys (freq profile) →
  ∃ self', for_each keys (add_word profile (Z.of_nat k) langsize) self
           = (self', Return tt).
Proof.
  intros Hdef Hk. revert self.
  induction keys as [|word keys IH]; intros self Hself Hkeys; [by eexists|].
  cbn [for_each]. unfold bind.
  pose proof (add_word_vectors_of_length profile (Z.of_nat k) langsize word _ self
                eq_refl Hself) as Hkeep.
  assert (∃ self1, add_word profile (Z.of_nat k) langsize word self = (self1, Return tt))
    as [self1 Hword].
  { rewrite add_word_unfold; cbv zeta.
    destruct (in_range word) eqn:Hlen; [|by eexists].
    destruct (probability_defined profile word Hdef) as [prob ->];
      [set_solver|done|].
    assert (length (start_vector langsize word self) = Z.to_nat langsize) as Hstart.
    { unfold start_vector.
      destruct (word_lang_prob_map self !! word) as [old|] eqn:Hold; cbn.
      - by eapply Hself.
      - unfold py_repeat. by rewrite length_replicate. }
    unfold py_setitem, py_index. rewrite Hstart.
    destruct (_ && _) eqn:Hin; [by eexists|Zbool; lia]. }
  rewrite Hword in Hkeep |- *. cbn in Hkeep.
  apply IH; [done|set_solver].
Qed.

(** [add_profile] returns when the language is new, the index is below
    [langsize], the vectors of the table have [langsize] slots and the
    profile's probabilities are defined. *)
Lemma add_profile_Return profile (k : nat) langsize self :
  name profile ∉ langlist self →
  (k < Z.to_nat langsize)%nat →
  vectors_of_length (Z.to_nat langsize) self →
  probabilities_defined profile →
  ∃ self', add_profile profile (Z.of_nat k) langsize self = (self', Return tt).
Proof.
  intros Hnew Hk Hself Hdef. rewrite add_profile_unfold. case_decide; [done|].
  by apply add_words_Return.
Qed.

Lemma load_json_loop_returns profiles (k : nat) langsize self :
  NoDup (name <$> profiles) →
  (∀ x, x ∈ langlist self → x ∉ name <$> profiles) →
  Forall probabilities_defined profiles →
  (k + length profiles ≤ Z.to_nat langsize)%nat →
  vectors_of_length (Z.to_nat langsize) self →
  ∃ self', load_json_loop (WellFormed <$> profiles) (Z.of_nat k) langsize self
           = (self', Return tt).
Proof.
  revert k self. induction profiles as [|profile profiles IH];
    intros k self Hnodup Hnew Hdef Hk Hself; [by eexists|].
  rewrite fmap_cons, load_json_loop_cons.
  apply NoDup_cons in Hnodup as [Hhead Hnodup].
  apply Forall_cons in Hdef as [Hprofile Hdef]. cbn [length] in Hk.
  destruct (add_profile_Return profile k langsize self) as [self1 Hadd]; try done.
  { intros Hin. apply (Hnew _ Hin). by left. }
  { lia. }
  pose proof (add_profile_vectors_of_length profile (Z.of_nat k) langsize _ self
                eq_refl Hself) as Hkeep.
  rewrite Hadd in Hkeep |- *. cbn in Hkeep.
  replace (Z.of_nat k + 1) with (Z.of_nat (S k)) by lia.
  apply IH; try done; [|lia].
  apply add_profile_langlist in Hadd as [_ ->].
  intros x [Hx| ->%list_elem_of_singleton]%elem_of_app; [|done].
  intros Hin. apply (Hnew _ Hx). by right.
Qed.

(** Two or more profiles of different languages, with their
    probabilities defined, are loaded into a new factory without error. *)
Lemma load_json_profile_Return profiles :
  (2 ≤ length profiles)%nat →
  NoDup (name <$> profiles) →
  Forall probabilities_defined profiles →
  ∃ self', load_json_profile (WellFormed <$> profiles) new_factory = (self', Return tt).
Proof.
  intros Hlen Hnodup Hdef. unfold load_json_profile. rewrite length_fmap.
  destruct (_ <? 2) eqn:Hlt; [Zbool; lia|].
  apply (load_json_loop_returns profiles 0).
  - done.
  - by intros x ?%elem_of_nil.
  - done.
  - rewrite Nat2Z.id. lia.
  - apply vectors_of_length_new.
Qed.

(** *** What get_best_timehash picks *)

Lemma insert_descending_elem x l y :
  y ∈ insert_descending x l ↔ y = x ∨ y ∈ l.
Proof.
  induction l as [|z l IH]; cbn.
  - rewrite list_elem_of_singleton. split; [by left|]. by intros [?|?%elem_of_nil].
  - destruct (z <? x); rewrite !elem_of_cons; [done|]. rewrite IH. tauto.
Qed.

Lemma sorted_reverse_elem l y : y ∈ sorted_reverse l ↔ y ∈ l.
Proof.
  unfold sorted_reverse. induction l as [|x l IH]; cbn; [done|].
  by rewrite insert_descending_elem, IH, elem_of_cons.
Qed.

Lemma insert_descending_sorted x l :
  StronglySorted (λ a b, b ≤ a) l →
  StronglySorted (λ a b, b ≤ a) (insert_descending x l).
Proof.
  induction 1 as [|z l Hl IH Hz]; cbn.
  - by repeat constructor.
  - destruct (z <? x) eqn:Hlt; Zbool.
    + constructor; [by constructor|].
      constructor; [lia|]. eapply Forall_impl; [exact Hz|]. cbn. lia.
    + constructor; [done|]. apply Forall_forall.
      intros y [->|Hy]%insert_descending_elem; [lia|].
      by apply (proj1 (Forall_forall _ _) Hz).
Qed.

Lemma sorted_reverse_sorted l : StronglySorted (λ a b, b ≤ a) (sorted_reverse l).
Proof.
  unfold sorted_reverse. induction l as [|x l IH]; cbn; [constructor|].
  by apply insert_descending_sorted.
Qed.

(** On timestamps in descending order the loop returns the name of the
    largest one that is not above the clock's int. *)
Lemma first_not_after_Return current_datetime l s :
  StronglySorted (λ a b, b ≤ a) l →
  first_not_after current_datetime l = Return s →
  ∃ current z,
    py_int current_datetime = Return current
    ∧ z ∈ l ∧ z ≤ current
    ∧ (∀ y, y ∈ l → y ≤ current → y ≤ z)
    ∧ s = timehash_name z.
Proof.
  induction 1 as [|z l Hl IH Hz]; cbn [first_not_after]; [done|].
  destruct (py_int current_datetime) as [current|] eqn:Hcur; [|done].
  destruct (z <=? current) eqn:Hle; Zbool.
  - intros Hs. exists current, z. split; [done|]. split; [by left|]. split; [done|].
    split.
    + intros y [->|Hy]%elem_of_cons _; [lia|].
      by apply (proj1 (Forall_forall _ _) Hz).
    + revert Hs. unfold timehash_name. destruct (_ <? 12)%nat; congruence.
  - intros (current' & z' & Hcur' & Hin & Hle' & Hmax & ->)%IH.
    assert (current' = current) as -> by congruence.
    exists current, z'. split; [done|]. split; [by right|]. split; [done|].
    split; [|done].
    intros y [->|Hy]%elem_of_cons Hy'; [lia|]. by apply Hmax.
Qed.

(** The loop raises [NameError] only if every timestamp is above the
    clock's int. *)
Lemma first_not_after_NameError current_datetime l :
  first_not_after current_datetime l = Raise NameError →
  ∀ current y, py_int current_datetime = Return current → y ∈ l → current < y.
Proof.
  induction l as [|z l IH]; cbn [first_not_after]; [by intros _ ?? _ ?%elem_of_nil|].
  destruct (py_int current_datetime) as [current|] eqn:Hcur.
  2:{ apply py_int_Raise in Hcur as ->. done. }
  destruct (z <=? current) eqn:Hle; Zbool; [by destruct (_ <? 12)%nat|].
  intros Hrest current' y [= <-] [->|Hy]%elem_of_cons; [lia|].
  by apply (IH Hrest).
Qed.

(** [get_best_timehash] goes by the ints of the names: it returns the
    name made from the largest int among the options that is not above
    the int of the clock's month-first digits. *)
Lemma get_best_timehash_Return now options s :
  get_best_timehash now options = Return s →
  ∃ ints current z,
    ints_of options = Return ints
    ∧ py_int (strftime_mdYHM now) = Return current
    ∧ z ∈ ints ∧ z ≤ current
    ∧ (∀ y, y ∈ ints → y ≤ current → y ≤ z)
    ∧ s = timehash_name z.
Proof.
  unfold get_best_timehash.
  destruct (ints_of options) as [ints|] eqn:Hints; [|done].
  intros (current & z & Hcur & Hin & Hle & Hmax & ->)%first_not_after_Return;
    [|apply sorted_reverse_sorted].
  exists ints, current, z. split; [done|]. split; [done|].
  split; [by apply sorted_reverse_elem|]. split; [done|]. split; [|done].
  intros y Hy. apply Hmax. by apply sorted_reverse_elem.
Qed.

Lemma get_best_timehash_NameError now options ints current :
  ints_of options = Return ints →
  py_int (strftime_mdYHM now) = Return current →
  get_best_timehash now options = Raise NameError →
  ∀ y, y ∈ ints → current < y.
Proof.
  unfold get_best_timehash. intros -> Hcur Hraise y Hy.
  eapply first_not_after_NameError; [done|done|]. by apply sorted_reverse_elem.
Qed.

(** ** The theorems at sample inputs *)

Lemma add_profile_stores_probability_witness :
  add_profile sample_en 0 2 new_factory = (loaded_en, Return tt)
  ∧ ∃ count total c t pos,
      dict_get (freq sample_en) "th"%string = Some count
      ∧ n_words sample_en !! (String.length "th" - 1)%nat = Some total
      ∧ total ≠ 0
      ∧ float_of_int count = Return c
      ∧ float_of_int total = Return t
      ∧ py_index (start_vector 2 "th"%string new_factory) 0 = Some pos
      ∧ (0 ≤ 0 → pos = Z.to_nat 0)
      ∧ word_lang_prob_map loaded_en !! "th"%string
        = Some (<[pos := (1 * c / t)%float]> (start_vector 2 "th"%string new_factory)).
Proof.
  split; [vm_compute; reflexivity|].
  apply (add_profile_stores_probability sample_en 0 2 new_factory loaded_en "th"%string).
  - vm_compute; reflexivity.
  - apply list_elem_of_here.
  - cbn; lia.
Defined.

Lemma add_profile_duplicate_witness :
  name sample_en ∈ langlist loaded_en
  ∧ add_profile sample_en 1 2 loaded_en
    = (loaded_en, Raise (LangDetectException DuplicateLangError)).
Proof.
  assert (name sample_en ∈ langlist loaded_en) as Hin by apply list_elem_of_here.
  split; [exact Hin|].
  exact (add_profile_duplicate sample_en 1 2 loaded_en Hin).
Defined.

Lemma add_profile_no_zero_division_witness :
  (add_profile sample_en 0 2 new_factory).2 ≠ Raise ZeroDivisionError
  ∧ ∀ word x, word ∈ dict_keys (freq sample_en) →
      (1 ≤ String.length word ≤ 3)%nat →
      ∃ total, n_words sample_en !! (String.length word - 1)%nat = Some total
               ∧ float_truediv_int x total ≠ Raise ZeroDivisionError.
Proof.
  apply (add_profile_no_zero_division sample_en 0 2 new_factory).
  intros L HL (word & Hin & Hlen).
  apply list_elem_of_In in Hin. cbn in Hin.
  destruct Hin as [<- | [<- | []]]; cbn in Hlen; subst L;
    exists 180; (split; [reflexivity | lia]).
Defined.

Lemma load_vectors_of_length_witness :
  (load_json_profile [WellFormed sample_en; WellFormed sample_fr] new_factory
   = (loaded_en_fr, Return tt)
   ∧ vectors_of_length (length (langlist loaded_en_fr)) loaded_en_fr
   ∧ length (langlist loaded_en_fr) = 2%nat)
  ∧ ∃ directory list_files,
      profile_listing sample_now sample_directory "classic"
      = Return (directory, list_files)
      ∧ vectors_of_length (length list_files)
          (load_profile sample_now sample_directory "classic" new_factory).1.
Proof.
  destruct load_vectors_of_length as [Hjson Hdir].
  assert (load_json_profile [WellFormed sample_en; WellFormed sample_fr] new_factory
          = (loaded_en_fr, Return tt)) as Hload by (vm_compute; reflexivity).
  split.
  - split; [exact Hload|]. exact (Hjson _ _ Hload).
  - assert (load_profile sample_now sample_directory "classic" new_factory
            = ((load_profile sample_now sample_directory "classic" new_factory).1,
               Return tt)) as Hload' by (vm_compute; reflexivity).
    destruct (Hdir _ _ _ _ Hload') as (directory & list_files & Hl & Hvec & _).
    exists directory, list_files. split; [exact Hl | exact Hvec].
Defined.

Lemma load_json_profile_index_order_witness :
  load_json_profile [WellFormed sample_en; WellFormed sample_fr] new_factory
  = (loaded_en_fr, Return tt)
  ∧ ∃ profiles,
      [WellFormed sample_en; WellFormed sample_fr] = WellFormed <$> profiles
      ∧ NoDup (name <$> profiles)
      ∧ langlist loaded_en_fr = name <$> profiles
      ∧ ∀ i profile,
          profiles !! i = Some profile →
          langlist loaded_en_fr !! i = Some (name profile)
          ∧ ∀ word,
              word ∈ dict_keys (freq profile) →
              (1 ≤ String.length word ≤ 3)%nat →
              ∃ vec prob,
                word_lang_prob_map loaded_en_fr !! word = Some vec
                ∧ probability profile word (Z.of_nat (String.length word))
                  = Return prob
                ∧ vec !! i = Some prob.
Proof.
  assert (load_json_profile [WellFormed sample_en; WellFormed sample_fr] new_factory
          = (loaded_en_fr, Return tt)) as Hload by (vm_compute; reflexivity).
  split; [exact Hload|].
  exact (load_json_profile_index_order _ _ Hload).
Defined.

Lemma need_load_profile_error_witness :
  load_json_profile [WellFormed sample_en] new_factory
  = (new_factory, Raise (LangDetectException NeedLoadProfileError))
  ∧ load_profile sample_now (Some (Dir [])) "classic" new_factory
    = (new_factory, Raise (LangDetectException NeedLoadProfileError)).
Proof.
  destruct need_load_profile_error as [Hjson Hdir]. split.
  - apply Hjson. cbn; lia.
  - apply Hdir. split; [reflexivity|]. exists (Some (Dir [])). reflexivity.
Defined.

Lemma load_json_profile_malformed_witness :
  let self2 := (add_profile sample_zz 1 2 loaded_en).1 in
  load_json_profile [WellFormed sample_en; WellFormed sample_zz] new_factory
  = (self2, Raise (LangDetectException FormatError))
  ∧ (∃ profiles,
       [WellFormed sample_en] = WellFormed <$> profiles
       ∧ langlist loaded_en = langlist new_factory ++ (name <$> profiles))
  ∧ langlist loaded_en `prefix_of` langlist self2
  ∧ (∀ word vec i,
       word_lang_prob_map loaded_en !! word = Some vec →
       i ≠ length [WellFormed sample_en] →
       ∃ vec', word_lang_prob_map self2 !! word = Some vec' ∧ vec' !! i = vec !! i)
  ∧ (if decide (name sample_zz ∈ langlist loaded_en)
     then self2 = loaded_en
     else langlist self2 = langlist loaded_en ++ [name sample_zz]).
Proof.
  intros self2.
  apply (load_json_profile_malformed [WellFormed sample_en] (WellFormed sample_zz) []
           new_factory loaded_en self2 (LangDetectException FormatError)).
  - cbn; lia.
  - vm_compute; reflexivity.
  - vm_compute; reflexivity.
Defined.

Lemma create_needs_profiles_witness :
  create None new_factory
  = (new_factory, Raise (LangDetectException NeedLoadProfileError))
  ∧ ∃ detector, create None loaded_en_fr = (loaded_en_fr, Return detector).
Proof.
  split.
  - apply (create_needs_profiles new_factory None). reflexivity.
  - apply (create_needs_profiles loaded_en_fr None). vm_compute. discriminate.
Defined.

Lemma get_lang_list_fresh_copy_witness :
  factory_of sample_heap sample_factory_object
  = Some {| word_lang_prob_map := ∅; langlist := ["en"; "fr"]%string |}
  ∧ ∃ h' r,
      get_lang_list sample_factory_object sample_heap = Some (h', r)
      ∧ sample_heap !! r = None
      ∧ h' !! r = Some (ListObject ["en"; "fr"]%string)
      ∧ factory_of h' sample_factory_object
        = Some {| word_lang_prob_map := ∅; langlist := ["en"; "fr"]%string |}
      ∧ ∀ mutations,
          factory_of (foldl (λ h f, mutate_list r f h) h' mutations)
            sample_factory_object
          = Some {| word_lang_prob_map := ∅; langlist := ["en"; "fr"]%string |}.
Proof.
  assert (factory_of sample_heap sample_factory_object
          = Some {| word_lang_prob_map := ∅; langlist := ["en"; "fr"]%string |})
    as Hself by (vm_compute; reflexivity).
  split; [exact Hself|].
  exact (get_lang_list_fresh_copy _ _ _ Hself).
Defined.

(** * Further properties *)

(** ** add_profile, beyond its own keys *)

(** The probabilities of a sample profile whose keys all have the total
    [total]. *)
Ltac sample_defined total :=
  let word := fresh "word" in
  let count := fresh "count" in
  let Hget := fresh "Hget" in
  intros word count Hget _; cbn in Hget;
  exists total,
    (match float_of_int count with Return c => c | Raise _ => 0%float end),
    (match float_of_int total with Return t => t | Raise _ => 0%float end);
  repeat (case_decide;
          [simplify_eq; repeat split; [lia | vm_compute; reflexivity ..]|]);
  done.

Lemma sample_en_defined : probabilities_defined sample_en.
Proof. sample_defined 180. Qed.

Lemma sample_fr_defined : probabilities_defined sample_fr.
Proof. sample_defined 160. Qed.

(** X1: whatever [add_profile] yields, the vector of an n-gram that is
    not a key of the profile's frequency map is what it was, and an n-gram
    that had no vector still has none. *)
Theorem add_profile_frame profile index langsize self word :
  word ∉ dict_keys (freq profile) →
  word_lang_prob_map (add_profile profile index langsize self).1 !! word
  = word_lang_prob_map self !! word.
Proof.
  intros Hword. rewrite add_profile_unfold. case_decide; [done|].
  by rewrite add_words_lookup_notin.
Qed.

Lemma add_profile_frame_witness :
  ("th"%string ∉ dict_keys (freq sample_fr))
  ∧ word_lang_prob_map (add_profile sample_fr 1 2 loaded_en).1 !! "th"%string
    = word_lang_prob_map loaded_en !! "th"%string.
Proof.
  assert ("th"%string ∉ dict_keys (freq sample_fr)) as Hword.
  { intros Hin%list_elem_of_In. cbn in Hin. by destruct Hin as [?|[?|[]]]. }
  split; [exact Hword|].
  exact (add_profile_frame sample_fr 1 2 loaded_en "th"%string Hword).
Defined.

(** X2: a key of the frequency map that is empty or longer than three
    characters gets an entry in the table all the same when [add_profile]
    returns: the vector it had, or [langsize] zeros if it had none; no
    probability is stored for it. *)
Theorem add_profile_key_out_of_range profile index langsize self self' word :
  add_profile profile index langsize self = (self', Return tt) →
  word ∈ dict_keys (freq profile) →
  ¬ (1 ≤ String.length word ≤ 3)%nat →
  word_lang_prob_map self' !! word
  = Some (default (py_repeat 0%float langsize) (word_lang_prob_map self !! word)).
Proof.
  rewrite add_profile_unfold. case_decide; [done|].
  intros Hloop Hin Hlen.
  pose proof (add_words_lookup_in _ _ _ _ _ _ _ Hloop Hin) as Hw.
  destruct (in_range word) eqn:Hr; [by apply in_range_length in Hr|].
  exact Hw.
Qed.

Lemma add_profile_key_out_of_range_witness :
  add_profile sample_long 0 2 new_factory
  = ((add_profile sample_long 0 2 new_factory).1, Return tt)
  ∧ word_lang_prob_map (add_profile sample_long 0 2 new_factory).1 !! "long"%string
    = Some (default (py_repeat 0%float 2)
              (word_lang_prob_map new_factory !! "long"%string)).
Proof.
  assert (add_profile sample_long 0 2 new_factory
          = ((add_profile sample_long 0 2 new_factory).1, Return tt)) as Hadd
    by (vm_compute; reflexivity).
  split; [exact Hadd|].
  apply (add_profile_key_out_of_range sample_long 0 2 new_factory _ "long"%string Hadd).
  - apply list_elem_of_here.
  - cbn; lia.
Defined.

(** X3: [add_profile] returns, without raising, when the language is not
    yet in [langlist], the index is not negative and below [langsize],
    every vector of the table has [langsize] slots, and for every key of
    length 1 to 3 the count and the total convert to floats and the total
    is present and not zero. *)
Theorem add_profile_returns profile (k : nat) langsize self :
  name profile ∉ langlist self →
  (k < Z.to_nat langsize)%nat →
  vectors_of_length (Z.to_nat langsize) self →
  probabilities_defined profile →
  ∃ self', add_profile profile (Z.of_nat k) langsize self = (self', Return tt).
Proof. apply add_profile_Return. Qed.

Lemma add_profile_returns_witness :
  ∃ self', add_profile sample_fr (Z.of_nat 1) 2 loaded_en = (self', Return tt).
Proof.
  apply (add_profile_returns sample_fr 1 2 loaded_en).
  - intros Hin%list_elem_of_In. cbn in Hin. by destruct Hin as [?|[]].
  - cbn; lia.
  - apply (add_profile_vectors_of_length sample_en 0 2 2 new_factory eq_refl).
    apply vectors_of_length_new.
  - apply sample_fr_defined.
Defined.

(** X4: if every vector of the table has [langsize] slots before
    [add_profile], every vector has [langsize] slots after it, whether it
    returns or raises. *)
Theorem add_profile_keeps_vector_lengths profile index langsize self :
  vectors_of_length (Z.to_nat langsize) self →
  vectors_of_length (Z.to_nat langsize) (add_profile profile index langsize self).1.
Proof. by apply add_profile_vectors_of_length. Qed.

Lemma add_profile_keeps_vector_lengths_witness :
  vectors_of_length (Z.to_nat 2) (add_profile sample_en 0 2 new_factory).1.
Proof.
  apply (add_profile_keeps_vector_lengths sample_en 0 2 new_factory).
  apply vectors_of_length_new.
Defined.

(** X5: a profile is never added twice.  After a call of [add_profile]
    for a profile, whatever that call yielded, even an exception raised
    half-way through the profile's keys, another call for the same profile
    raises the exception with code [DuplicateLangError] and changes
    nothing, whatever index and size it is given. *)
Theorem add_profile_not_twice profile index langsize index' langsize' self :
  let self1 := (add_profile profile index langsize self).1 in
  add_profile profile index' langsize' self1
  = (self1, Raise (LangDetectException DuplicateLangError)).
Proof.
  intros self1. rewrite (add_profile_unfold profile index' langsize' self1).
  assert (name profile ∈ langlist self1) as Hin.
  { unfold self1. rewrite add_profile_langlist_any. case_decide; [done|]. set_solver. }
  by case_decide.
Qed.

(** ** The loaders' exceptions *)

Lemma sample_de_defined : probabilities_defined sample_de.
Proof. sample_defined 65. Qed.

Lemma sample_es_defined : probabilities_defined sample_es.
Proof. sample_defined 40. Qed.

Lemma probability_Raise profile word length e :
  probability profile word length = Raise e →
  e = TypeError ∨ e = OverflowError ∨ e = IndexError ∨ e = ZeroDivisionError.
Proof.
  unfold probability, float_mul_int, float_truediv_int.
  destruct (dict_get _ _) as [count|]; [|intros [= <-]; by auto].
  destruct (float_of_int count) as [c|e1] eqn:Hc.
  2:{ intros [= <-]. apply float_of_int_Raise in Hc. by auto. }
  destruct (py_getitem _ _) as [total|e1] eqn:Htotal.
  2:{ intros [= <-]. apply py_getitem_Raise in Htotal. by auto. }
  destruct (float_of_int total) as [t|e1] eqn:Ht.
  2:{ intros [= <-]. apply float_of_int_Raise in Ht. by auto. }
  destruct (total =? 0); [intros [= <-]; by auto|done].
Qed.

(** [add_profile] raises no [OSError]. *)
Lemma add_profile_Raise profile index langsize self self' e :
  add_profile profile index langsize self = (self', Raise e) → e ≠ OSError.
Proof.
  rewrite add_profile_unfold. case_decide; [by intros [= _ <-]|].
  intros (word & self0 & _ & Hword)%for_each_Raise.
  rewrite add_word_unfold in Hword; cbv zeta in Hword.
  destruct (in_range word); [|done].
  destruct (probability _ _ _) as [prob|e1] eqn:Hprob.
  - destruct (py_setitem _ _ _) as [vec|e1] eqn:Hset; [done|].
    apply py_setitem_Raise in Hset. by simplify_eq.
  - apply probability_Raise in Hprob. simplify_eq. by destruct Hprob as [->|[->|[->| ->]]].
Qed.

Lemma WellFormed_fmap_inj (l l' : list LangProfile) :
  WellFormed <$> l = WellFormed <$> l' → l = l'.
Proof.
  revert l'. induction l as [|p l IH]; intros [|p' l']; try done.
  cbn. intros [= -> ->%IH]. done.
Qed.

(** X6: [load_json_profile] raises nothing but the exception with code
    [NeedLoadProfileError], which it raises when given fewer than two
    texts and before it changes anything, and the exception with code
    [FormatError], which stands for every failure of a text or of its
    profile once two or more texts are given. *)
Theorem load_json_profile_raises_only json_profiles self self' e :
  load_json_profile json_profiles self = (self', Raise e) →
  (e = LangDetectException NeedLoadProfileError
   ∧ (length json_profiles < 2)%nat ∧ self' = self)
  ∨ (e = LangDetectException FormatError ∧ (2 ≤ length json_profiles)%nat).
Proof.
  unfold load_json_profile. destruct (_ <? 2) eqn:Hlt; Zbool.
  - intros [= <- <-]. left. repeat split; [lia].
  - intros ->%load_json_loop_Raise. right. split; [done|lia].
Qed.

Lemma load_json_profile_raises_only_witness :
  load_json_profile [WellFormed sample_en; Malformed] new_factory
  = (loaded_en, Raise (LangDetectException FormatError))
  ∧ ((LangDetectException FormatError = LangDetectException NeedLoadProfileError
      ∧ (length [WellFormed sample_en; Malformed] < 2)%nat
      ∧ loaded_en = new_factory)
     ∨ (LangDetectException FormatError = LangDetectException FormatError
        ∧ (2 ≤ length [WellFormed sample_en; Malformed])%nat)).
Proof.
  assert (load_json_profile [WellFormed sample_en; Malformed] new_factory
          = (loaded_en, Raise (LangDetectException FormatError))) as Hload
    by (vm_compute; reflexivity).
  split; [exact Hload|].
  exact (load_json_profile_raises_only _ _ _ _ Hload).
Defined.

(** X7: two profiles of the same language among two or more well-formed
    texts make [load_json_profile] raise the exception with code
    [FormatError], not [DuplicateLangError], on any factory: the bare
    [except] of the loop replaces the exception of [add_profile]. *)
Theorem load_json_profile_duplicate_is_format_error profiles self :
  (2 ≤ length profiles)%nat →
  ¬ NoDup (name <$> profiles) →
  ∃ self', load_json_profile (WellFormed <$> profiles) self
           = (self', Raise (LangDetectException FormatError)).
Proof.
  intros Hlen Hdup. unfold load_json_profile. rewrite length_fmap.
  destruct (_ <? 2) eqn:Hlt; Zbool; [lia|].
  destruct (load_json_loop _ _ _ _) as [self' [[]|e]] eqn:Hloop.
  - apply (load_json_loop_Return _ 0%nat) in Hloop
      as (profiles' & Heq & _ & Hnodup & _).
    apply WellFormed_fmap_inj in Heq as <-. done.
  - apply load_json_loop_Raise in Hloop as Heq. subst e. by exists self'.
Qed.

Lemma load_json_profile_duplicate_is_format_error_witness :
  ∃ self', load_json_profile (WellFormed <$> [sample_en; sample_en]) new_factory
           = (self', Raise (LangDetectException FormatError)).
Proof.
  apply (load_json_profile_duplicate_is_format_error [sample_en; sample_en] new_factory).
  - cbn; lia.
  - intros Hnd. cbn in Hnd. apply NoDup_cons in Hnd as [Hnotin _].
    apply Hnotin. apply list_elem_of_here.
Defined.

(** X8: two or more well-formed texts whose profiles have different
    languages and defined probabilities are loaded into a new factory
    without any exception. *)
Theorem load_json_profile_returns profiles :
  (2 ≤ length profiles)%nat →
  NoDup (name <$> profiles) →
  Forall probabilities_defined profiles →
  ∃ self', load_json_profile (WellFormed <$> profiles) new_factory = (self', Return tt).
Proof. apply load_json_profile_Return. Qed.

Lemma load_json_profile_returns_witness :
  ∃ self', load_json_profile (WellFormed <$> [sample_en; sample_fr]) new_factory
           = (self', Return tt).
Proof.
  apply (load_json_profile_returns [sample_en; sample_fr]).
  - cbn; lia.
  - cbn. apply NoDup_cons. split.
    + intros Hin%list_elem_of_In. cbn in Hin. by destruct Hin as [?|[]].
    + apply NoDup_singleton.
  - repeat constructor; [apply sample_en_defined | apply sample_fr_defined].
Defined.

(** ** Loading into a factory that is not new *)

(** X9: [load_json_profile] does not empty the factory first.  When it
    returns, the names of the profiles are appended to what [langlist]
    held, none of them being there before, so the language of the profile
    presented at position [j] stands at position [len(langlist before) + j]
    of [langlist]; its probabilities are in slot [j] of the vectors all
    the same. *)
Theorem load_json_profile_appends json_profiles self self' :
  load_json_profile json_profiles self = (self', Return tt) →
  ∃ profiles,
    json_profiles = WellFormed <$> profiles
    ∧ langlist self' = langlist self ++ (name <$> profiles)
    ∧ (∀ x, x ∈ langlist self → x ∉ name <$> profiles)
    ∧ ∀ j profile,
        profiles !! j = Some profile →
        langlist self' !! (length (langlist self) + j)%nat = Some (name profile)
        ∧ ∀ word,
            word ∈ dict_keys (freq profile) →
            (1 ≤ String.length word ≤ 3)%nat →
            ∃ vec prob,
              word_lang_prob_map self' !! word = Some vec
              ∧ probability profile word (Z.of_nat (String.length word)) = Return prob
              ∧ vec !! j = Some prob.
Proof.
  unfold load_json_profile. destruct (_ <? 2); [done|].
  intros (profiles & -> & Hlang & _ & Hnew & Hslots & _)%(load_json_loop_Return _ 0%nat).
  exists profiles. do 3 (split; [done|]).
  intros j profile Hj. split.
  - rewrite Hlang, lookup_app_r by lia.
    replace (length (langlist self) + j - length (langlist self))%nat with j by lia.
    by rewrite list_lookup_fmap, Hj.
  - intros word Hin Hlen%in_range_length. by apply (Hslots j profile word).
Qed.

Lemma load_json_profile_appends_witness :
  let self' :=
    (load_json_profile [WellFormed sample_de; WellFormed sample_es] loaded_en_fr).1 in
  load_json_profile [WellFormed sample_de; WellFormed sample_es] loaded_en_fr
  = (self', Return tt)
  ∧ ∃ profiles,
      [WellFormed sample_de; WellFormed sample_es] = WellFormed <$> profiles
      ∧ langlist self' = langlist loaded_en_fr ++ (name <$> profiles)
      ∧ (∀ x, x ∈ langlist loaded_en_fr → x ∉ name <$> profiles)
      ∧ ∀ j profile,
          profiles !! j = Some profile →
          langlist self' !! (length (langlist loaded_en_fr) + j)%nat
          = Some (name profile)
          ∧ ∀ word,
              word ∈ dict_keys (freq profile) →
              (1 ≤ String.length word ≤ 3)%nat →
              ∃ vec prob,
                word_lang_prob_map self' !! word = Some vec
                ∧ probability profile word (Z.of_nat (String.length word))
                  = Return prob
                ∧ vec !! j = Some prob.
Proof.
  intros self'.
  assert (load_json_profile [WellFormed sample_de; WellFormed sample_es] loaded_en_fr
          = (self', Return tt)) as Hload by (vm_compute; reflexivity).
  split; [exact Hload|].
  exact (load_json_profile_appends _ _ _ Hload).
Defined.

Lemma load_json_loop_prefix json_profiles index langsize self :
  langlist self `prefix_of` langlist (load_json_loop json_profiles index langsize self).1.
Proof.
  revert index self. induction json_profiles as [|j rest IH]; intros index self; [done|].
  rewrite load_json_loop_cons. destruct j as [|profile]; [done|].
  pose proof (add_profile_prefix profile index langsize self) as H1.
  destruct (add_profile _ _ _ _) as [self1 [[]|e]]; [|done].
  etrans; [exact H1|apply IH].
Qed.

Lemma load_profile_loop_prefix profile_directory list_files index langsize self :
  langlist self
  `prefix_of` langlist
                (load_profile_loop profile_directory list_files index langsize self).1.
Proof.
  revert index self. induction list_files as [|filename rest IH]; intros index self; [done|].
  rewrite load_profile_loop_cons.
  destruct (loaded_file _ _); [|by apply IH].
  destruct (path_join _ _) as [[[|[|profile]]|entries]|]; try done.
  pose proof (add_profile_prefix profile index langsize self) as H1.
  destruct (add_profile _ _ _ _) as [self1 [[]|e]]; [|done].
  etrans; [exact H1|apply IH].
Qed.

(** X10: the loaders only ever append to [langlist].  Whatever
    [load_json_profile] or [load_profile] yields, a return or any
    exception, the [langlist] from before the call is a prefix of the
    [langlist] after it: no language is removed or moved. *)
Theorem loaders_only_append :
  (∀ json_profiles self,
     langlist self `prefix_of` langlist (load_json_profile json_profiles self).1)
  ∧ (∀ now profile_directory mode self,
       langlist self
       `prefix_of` langlist (load_profile now profile_directory mode self).1).
Proof.
  split.
  - intros json_profiles self. unfold load_json_profile.
    destruct (_ <? 2); [done|]. apply load_json_loop_prefix.
  - intros now profile_directory mode self. unfold load_profile, bind, lift.
    destruct (profile_listing _ _ _) as [[directory list_files]|e]; [|done]. cbn.
    destruct list_files as [|filename rest]; [done|]. apply load_profile_loop_prefix.
Qed.

(** ** load_profile and the files of a directory *)

Lemma loaded_file_isfile profile_directory filename :
  loaded_file profile_directory filename = true →
  ∃ f, path_join profile_directory filename = Some (File f).
Proof.
  unfold loaded_file, path_isfile. intros [_ Hfile]%andb_true_iff.
  destruct (path_join _ _) as [[f|entries]|]; try done. by exists f.
Qed.

Lemma profile_texts_cons profile_directory filename rest :
  profile_texts profile_directory (filename :: rest)
  = match (if loaded_file profile_directory filename
           then match path_join profile_directory filename with
                | Some (File (Text j)) => Some j
                | _ => None
                end
           else None) with
    | Some j => j :: profile_texts profile_directory rest
    | None => profile_texts profile_directory rest
    end.
Proof. done. Qed.

Lemma load_profile_loop_readable profile_directory list_files index langsize self :
  all_readable profile_directory list_files →
  load_profile_loop profile_directory list_files index langsize self
  = load_json_loop (profile_texts profile_directory list_files) index langsize self.
Proof.
  revert index self. induction list_files as [|filename rest IH];
    intros index self Hread; [done|].
  assert (all_readable profile_directory rest) as Hrest.
  { intros f Hf. apply Hread. by right. }
  rewrite load_profile_loop_cons, profile_texts_cons.
  destruct (loaded_file _ _) eqn:Hloaded; [|by apply IH].
  destruct (Hread filename) as [j Hj]; [by left|done|]. rewrite Hj.
  rewrite load_json_loop_cons. destruct j as [|profile]; [done|].
  destruct (add_profile _ _ _ _) as [self1 [[]|e]] eqn:Hadd; [by apply IH|].
  apply add_profile_Raise in Hadd. by destruct e.
Qed.

(** X11: on a directory in which every name that is not skipped is a
    file that can be read, [load_profile] does to the factory, and yields,
    what the loop of [load_json_profile] does on the texts of those files
    in listing order, with [langsize] the number of names listed, the
    skipped ones included. *)
Theorem load_profile_as_json now profile_directory mode directory list_files self :
  profile_listing now profile_directory mode = Return (directory, list_files) →
  list_files ≠ [] →
  all_readable directory list_files →
  load_profile now profile_directory mode self
  = load_json_loop (profile_texts directory list_files) 0
      (Z.of_nat (length list_files)) self.
Proof.
  intros Hlisting Hne Hread. unfold load_profile, bind, lift. rewrite Hlisting. cbn.
  destruct list_files as [|filename rest] eqn:Hfiles; [done|]. rewrite <- Hfiles in *.
  by apply load_profile_loop_readable.
Qed.

Lemma load_profile_as_json_witness :
  load_profile sample_now sample_directory "classic" new_factory
  = load_json_loop [WellFormed sample_en; WellFormed sample_fr] 0 3 new_factory.
Proof.
  apply (load_profile_as_json sample_now sample_directory "classic" sample_directory
           [".DS_Store"; "en"; "fr"]%string new_factory).
  - reflexivity.
  - discriminate.
  - intros filename Hin Hloaded. apply list_elem_of_In in Hin. cbn in Hin.
    destruct Hin as [<-|[<-|[<-|[]]]].
    + discriminate Hloaded.
    + by eexists.
    + by eexists.
Defined.

Lemma load_profile_loop_FileLoadError
    profile_directory list_files index langsize self self' :
  load_profile_loop profile_directory list_files index langsize self
  = (self', Raise (LangDetectException FileLoadError)) →
  ∃ filename,
    filename ∈ list_files
    ∧ loaded_file profile_directory filename = true
    ∧ path_join profile_directory filename = Some (File Unreadable).
Proof.
  revert index self. induction list_files as [|filename rest IH]; intros index self; [done|].
  rewrite load_profile_loop_cons.
  destruct (loaded_file _ _) eqn:Hloaded.
  - destruct (loaded_file_isfile _ _ Hloaded) as [f Hf]. rewrite Hf.
    destruct f as [|[|profile]]; [|done|].
    + intros _. exists filename. split; [by left|done].
    + destruct (add_profile _ _ _ _) as [self1 [[]|e]] eqn:Hadd.
      * intros (f & Hin & ?)%IH. exists f. split; [by right|done].
      * apply add_profile_Raise in Hadd. by destruct e.
  - intros (f & Hin & ?)%IH. exists f. split; [by right|done].
Qed.

(** X12: [load_profile] raises the exception with code [FileLoadError]
    only for a file that cannot be opened: some name of the listing that
    was not skipped is such a file.  No failure of a profile's content is
    reported under that code. *)
Theorem load_profile_file_load_error now profile_directory mode self self' :
  load_profile now profile_directory mode self
  = (self', Raise (LangDetectException FileLoadError)) →
  ∃ directory list_files filename,
    profile_listing now profile_directory mode = Return (directory, list_files)
    ∧ filename ∈ list_files
    ∧ loaded_file directory filename = true
    ∧ path_join directory filename = Some (File Unreadable).
Proof.
  unfold load_profile, bind, lift.
  destruct (profile_listing _ _ _) as [[directory list_files]|e] eqn:Hlisting; cbn.
  - destruct list_files as [|filename rest] eqn:Hfiles; [done|]. rewrite <- Hfiles.
    intros (f & Hf)%load_profile_loop_FileLoadError. by exists directory, list_files, f.
  - apply profile_listing_Raise in Hlisting. intros [= _ ->].
    by destruct Hlisting as [?|[?|?]].
Qed.

Lemma load_profile_file_load_error_witness :
  load_profile sample_now unreadable_directory "classic" new_factory
  = (loaded_en_unreadable, Raise (LangDetectException FileLoadError))
  ∧ ∃ directory list_files filename,
      profile_listing sample_now unreadable_directory "classic"
      = Return (directory, list_files)
      ∧ filename ∈ list_files
      ∧ loaded_file directory filename = true
      ∧ path_join directory filename = Some (File Unreadable).
Proof.
  assert (load_profile sample_now unreadable_directory "classic" new_factory
          = (loaded_en_unreadable, Raise (LangDetectException FileLoadError)))
    as Hload by (vm_compute; reflexivity).
  split; [exact Hload|].
  exact (load_profile_file_load_error _ _ _ _ _ Hload).
Defined.

Lemma load_profile_loop_skipped profile_directory list_files index langsize self :
  Forall (λ filename, loaded_file profile_directory filename = false) list_files →
  load_profile_loop profile_directory list_files index langsize self = (self, Return tt).
Proof.
  induction 1 as [|filename rest Hskip _ IH]; [done|].
  by rewrite load_profile_loop_cons, Hskip.
Qed.

Lemma load_profile_skipped_listing
    now profile_directory mode directory list_files self :
  profile_listing now profile_directory mode = Return (directory, list_files) →
  list_files ≠ [] →
  Forall (λ filename, loaded_file directory filename = false) list_files →
  load_profile now profile_directory mode self = (self, Return tt).
Proof.
  intros Hlisting Hne Hskip. unfold load_profile, bind, lift. rewrite Hlisting. cbn.
  destruct list_files as [|filename rest] eqn:Hfiles; [done|]. rewrite <- Hfiles in *.
  by apply load_profile_loop_skipped.
Qed.

(** X13: a directory whose listing is not empty but holds only names that
    are skipped, names with a leading dot and names that are not files,
    is loaded without any exception and leaves the factory as it was: no
    language is added and [NeedLoadProfileError] is not raised. *)
Theorem load_profile_all_skipped now profile_directory mode directory list_files self :
  profile_listing now profile_directory mode = Return (directory, list_files) →
  list_files ≠ [] →
  Forall (λ filename, loaded_file directory filename = false) list_files →
  load_profile now profile_directory mode self = (self, Return tt).
Proof. apply load_profile_skipped_listing. Qed.

Lemma load_profile_all_skipped_witness :
  load_profile sample_now timed_directory "classic" new_factory
  = (new_factory, Return tt).
Proof.
  apply (load_profile_all_skipped sample_now timed_directory "classic" timed_directory
           ["010120251200"; "013120251200"]%string new_factory).
  - reflexivity.
  - discriminate.
  - repeat constructor.
Defined.

Lemma load_profile_mode now profile_directory mode timehash_dirs best self :
  mode ≠ "classic"%string →
  os_listdir profile_directory = Return timehash_dirs →
  get_best_timehash now timehash_dirs = Return best →
  load_profile now profile_directory mode self
  = load_profile now (path_join profile_directory best) "classic" self.
Proof.
  intros Hmode Hdirs Hbest. unfold load_profile, profile_listing.
  rewrite Hdirs, Hbest. by repeat case_decide.
Qed.

(** X14: in a mode other than [classic], [load_profile] is [load_profile]
    in mode [classic] on the subdirectory that [get_best_timehash] names
    among the entries of the directory. *)
Theorem load_profile_expiration now profile_directory mode timehash_dirs best self :
  mode ≠ "classic"%string →
  os_listdir profile_directory = Return timehash_dirs →
  get_best_timehash now timehash_dirs = Return best →
  load_profile now profile_directory mode self
  = load_profile now (path_join profile_directory best) "classic" self.
Proof. apply load_profile_mode. Qed.

Lemma load_profile_expiration_witness :
  load_profile sample_now timed_directory "expiration" new_factory
  = load_profile sample_now (path_join timed_directory "013120251200") "classic"
      new_factory.
Proof.
  apply (load_profile_expiration sample_now timed_directory "expiration"
           ["010120251200"; "013120251200"]%string "013120251200"%string new_factory).
  - discriminate.
  - reflexivity.
  - vm_compute; reflexivity.
Defined.

(** ** get_best_timehash, by the ints of the names *)

(** X15: when [get_best_timehash] returns, every option was read as an
    int, and the name returned is made from the largest of these ints that
    is not above the int of the clock's digits, month first: [str] of that
    int, with one ["0"] put before it when it has fewer than 12
    characters. *)
Theorem get_best_timehash_largest now options s :
  get_best_timehash now options = Return s →
  ∃ ints current z,
    ints_of options = Return ints
    ∧ py_int (strftime_mdYHM now) = Return current
    ∧ z ∈ ints ∧ z ≤ current
    ∧ (∀ y, y ∈ ints → y ≤ current → y ≤ z)
    ∧ s = timehash_name z.
Proof. apply get_best_timehash_Return. Qed.

Lemma get_best_timehash_largest_witness :
  get_best_timehash sample_now ["010120251200"; "013120251200"; "020120251201"]%string
  = Return "013120251200"%string
  ∧ ∃ ints current z,
      ints_of ["010120251200"; "013120251200"; "020120251201"]%string = Return ints
      ∧ py_int (strftime_mdYHM sample_now) = Return current
      ∧ z ∈ ints ∧ z ≤ current
      ∧ (∀ y, y ∈ ints → y ≤ current → y ≤ z)
      ∧ "013120251200"%string = timehash_name z.
Proof.
  assert (get_best_timehash sample_now
            ["010120251200"; "013120251200"; "020120251201"]%string
          = Return "013120251200"%string) as Hbest by (vm_compute; reflexivity).
  split; [exact Hbest|].
  exact (get_best_timehash_largest _ _ _ Hbest).
Defined.

Lemma first_not_after_all_above current_datetime current l :
  py_int current_datetime = Return current →
  (∀ y, y ∈ l → current < y) →
  first_not_after current_datetime l = Raise NameError.
Proof.
  intros Hcur. induction l as [|z l IH]; intros Habove; [done|].
  cbn [first_not_after]. rewrite Hcur.
  destruct (z <=? current) eqn:Hle; Zbool.
  - specialize (Habove z (list_elem_of_here _ _)). lia.
  - apply IH. intros y Hy. apply Habove. by right.
Qed.

(** X16: when the options and the clock's digits are read as ints,
    [get_best_timehash] raises [NameError] exactly when every option's int
    is above the clock's int; in particular it does so for no options at
    all. *)
Theorem get_best_timehash_name_error now options ints current :
  ints_of options = Return ints →
  py_int (strftime_mdYHM now) = Return current →
  get_best_timehash now options = Raise NameError
  ↔ ∀ y, y ∈ ints → current < y.
Proof.
  intros Hints Hcur. unfold get_best_timehash. rewrite Hints. split.
  - intros Hraise y Hy.
    eapply first_not_after_NameError; [done|done|]. by apply sorted_reverse_elem.
  - intros Habove. apply (first_not_after_all_above _ current); [done|].
    intros y Hy. apply Habove. by apply sorted_reverse_elem.
Qed.

Lemma get_best_timehash_name_error_witness :
  get_best_timehash sample_now ["120120201200"; "020120251201"]%string
  = Raise NameError
  ↔ ∀ y, y ∈ [120120201200; 20120251201] → 20120251200 < y.
Proof.
  apply (get_best_timehash_name_error sample_now
           ["120120201200"; "020120251201"]%string); vm_compute; reflexivity.
Defined.

Lemma ints_of_Raise_elem options e :
  ints_of options = Raise e → ∃ x, x ∈ options ∧ py_int x = Raise ValueError.
Proof.
  induction options as [|x rest IH]; [done|]. cbn.
  destruct (py_int x) as [z|e1] eqn:Hx.
  - destruct (ints_of rest) as [zs|e2]; [done|].
    intros [= ->]. destruct (IH eq_refl) as (y & Hy & Hraise).
    exists y. split; [by right|done].
  - intros _. exists x. split; [by left|].
    by rewrite (py_int_Raise _ _ Hx) in Hx.
Qed.

Lemma ints_of_Return_elem options ints x :
  ints_of options = Return ints → x ∈ options → ∃ z, py_int x = Return z.
Proof.
  revert ints. induction options as [|x' rest IH]; intros ints; cbn.
  - by intros _ ?%elem_of_nil.
  - destruct (py_int x') as [z|e1] eqn:Hx; [|done].
    destruct (ints_of rest) as [zs|e2]; [|done].
    intros _ [->|Hin]%elem_of_cons; [by eexists|]. by eapply IH.
Qed.

(** X17: with a clock whose digits are read as an int,
    [get_best_timehash] raises [ValueError] exactly when [int] rejects one
    of the options; one name that is not a number in the directory, a
    hidden file for one, is enough. *)
Theorem get_best_timehash_value_error now options current :
  py_int (strftime_mdYHM now) = Return current →
  get_best_timehash now options = Raise ValueError
  ↔ ∃ x, x ∈ options ∧ py_int x = Raise ValueError.
Proof.
  intros Hcur. unfold get_best_timehash. split.
  - destruct (ints_of options) as [ints|e] eqn:Hints.
    + intros Hraise. exfalso. revert Hraise.
      generalize (sorted_reverse ints). intros l.
      induction l as [|z l IH]; cbn [first_not_after]; [done|]. rewrite Hcur.
      destruct (z <=? current); [by destruct (_ <? 12)%nat|done].
    + intros _. by eapply ints_of_Raise_elem.
  - intros (x & Hin & Hx).
    destruct (ints_of options) as [ints|e] eqn:Hints.
    + destruct (ints_of_Return_elem _ _ x Hints Hin) as [z Hz]. congruence.
    + by rewrite (ints_of_Raise _ _ Hints).
Qed.

Lemma get_best_timehash_value_error_witness :
  get_best_timehash sample_now [".DS_Store"; "010120251200"]%string = Raise ValueError
  ↔ ∃ x, x ∈ [".DS_Store"; "010120251200"]%string ∧ py_int x = Raise ValueError.
Proof.
  apply (get_best_timehash_value_error sample_now
           [".DS_Store"; "010120251200"]%string 20120251200).
  vm_compute; reflexivity.
Defined.

(** *** The order of a listing *)

Lemma insert_descending_Permutation x l : insert_descending x l ≡ₚ x :: l.
Proof.
  induction l as [|y l IH]; cbn; [done|].
  destruct (y <? x); [done|]. rewrite IH. apply Permutation_swap.
Qed.

Lemma sorted_reverse_Permutation l : sorted_reverse l ≡ₚ l.
Proof.
  unfold sorted_reverse. induction l as [|x l IH]; cbn; [done|].
  by rewrite insert_descending_Permutation, IH.
Qed.

(** Sorting forgets the order its argument came in. *)
Lemma sorted_reverse_unique l l' : l ≡ₚ l' → sorted_reverse l = sorted_reverse l'.
Proof.
  intros Hperm.
  apply (StronglySorted_unique_strong (λ a b : Z, b ≤ a)).
  - intros x1 x2 _ _ ? ?. lia.
  - apply sorted_reverse_sorted.
  - apply sorted_reverse_sorted.
  - by rewrite !sorted_reverse_Permutation.
Qed.

(** The ints of a listing in another order: the same ints in another
    order, or the same exception. *)
Lemma ints_of_Permutation options options' :
  options ≡ₚ options' →
  match ints_of options, ints_of options' with
  | Return ints, Return ints' => ints ≡ₚ ints'
  | Raise e, Raise e' => e = e'
  | _, _ => False
  end.
Proof.
  induction 1 as [|x l l' _ IH|x y l|l l' l'' _ IH1 _ IH2]; cbn.
  - done.
  - destruct (py_int x) as [z|e] eqn:Hx; [|done].
    destruct (ints_of l) as [zs|e1], (ints_of l') as [zs'|e2]; try done.
    by constructor.
  - destruct (py_int x) as [zx|ex] eqn:Hx, (py_int y) as [zy|ey] eqn:Hy.
    + destruct (ints_of l) as [zs|e1]; [apply Permutation_swap|done].
    + by rewrite (py_int_Raise _ _ Hy).
    + by rewrite (py_int_Raise _ _ Hx).
    + by rewrite (py_int_Raise _ _ Hx), (py_int_Raise _ _ Hy).
  - destruct (ints_of l) as [a|ea], (ints_of l') as [b|eb], (ints_of l'') as [c|ec];
      try done; by etrans.
Qed.

(** X18: the order in which the directory lists its entries does not
    matter to [get_best_timehash]: on two listings of the same names it
    yields the same name or the same exception. *)
Theorem get_best_timehash_order now options options' :
  options ≡ₚ options' →
  get_best_timehash now options = get_best_timehash now options'.
Proof.
  intros Hperm%ints_of_Permutation. unfold get_best_timehash.
  destruct (ints_of options) as [ints|e], (ints_of options') as [ints'|e']; try done.
  - by rewrite (sorted_reverse_unique _ _ Hperm).
  - by subst.
Qed.

Lemma get_best_timehash_order_witness :
  get_best_timehash sample_now ["010120251200"; "013120251200"]%string
  = get_best_timehash sample_now ["013120251200"; "010120251200"]%string.
Proof.
  apply (get_best_timehash_order sample_now). apply Permutation_swap.
Defined.

(** ** The factory of the module *)

Lemma dict_get_elem {V} (d : list (string * V)) k v :
  dict_get d k = Some v → (k, v) ∈ d.
Proof.
  induction d as [|[k' v'] d IH]; cbn; [done|].
  case_decide; [intros [= ->]; subst; by left|]. intros ?%IH. by right.
Qed.

(** X19: when the first call of [detect] finds an empty directory, it
    raises the exception with code [NeedLoadProfileError] and leaves the
    module's factory bound to a factory without languages; every later
    call with a directory name that does not start with [timed_] then
    raises the same exception when the detector is created, without
    loading anything, whatever directory it names and whatever that
    directory holds. *)
Theorem detect_empty_directory {R A}
    (Detector_detect : R → Detector → string → outcome A)
    random now package text profiles_directory :
  os_listdir (package profiles_directory) = Return [] →
  detect Detector_detect random now package text profiles_directory None
  = (new_factory, Raise (LangDetectException NeedLoadProfileError))
  ∧ ∀ random' now' package' text' profiles_directory',
      py_find profiles_directory' "timed_" ≠ 0 →
      detect Detector_detect random' now' package' text' profiles_directory'
        (Some new_factory)
      = (new_factory, Raise (LangDetectException NeedLoadProfileError)).
Proof.
  intros Hempty. split.
  - unfold detect, init_factory, load_profile, profile_listing, bind, lift, raise.
    case_decide; [|done]. by rewrite Hempty.
  - intros random' now' package' text' profiles_directory' Hname.
    unfold detect, init_factory.
    destruct (_ =? 0) eqn:Hfind; [Zbool; done|]. done.
Qed.

Lemma detect_empty_directory_witness :
  detect (λ (_ : nat) _ _, Return "en"%string) 0%nat sample_now empty_package
    "text" "profiles" None
  = (new_factory, Raise (LangDetectException NeedLoadProfileError))
  ∧ ∀ random' now' package' text' profiles_directory',
      py_find profiles_directory' "timed_" ≠ 0 →
      detect (λ (_ : nat) _ _, Return "en"%string) random' now' package' text'
        profiles_directory' (Some new_factory)
      = (new_factory, Raise (LangDetectException NeedLoadProfileError)).
Proof.
  apply (detect_empty_directory (λ (_ : nat) _ _, Return "en"%string) 0%nat
           sample_now empty_package "text"%string "profiles"%string).
  reflexivity.
Defined.

(** X20: the first call of [detect] loads its directory in mode
    [classic], whatever the name of the directory.  On a directory that is
    not empty and holds subdirectories only, as a directory of
    time-stamped profile directories does, nothing is loaded, no exception
    is raised by the load, and [detect] raises the exception with code
    [NeedLoadProfileError] when it creates the detector. *)
Theorem detect_first_call_classic {R A}
    (Detector_detect : R → Detector → string → outcome A)
    random now package text profiles_directory entries :
  package profiles_directory = Some (Dir entries) →
  entries ≠ [] →
  (∀ filename n, (filename, n) ∈ entries → ∃ subentries, n = Dir subentries) →
  detect Detector_detect random now package text profiles_directory None
  = (new_factory, Raise (LangDetectException NeedLoadProfileError)).
Proof.
  intros Hdir Hne Hsub. unfold detect, init_factory.
  assert (load_profile now (package profiles_directory) "classic" new_factory
          = (new_factory, Return tt)) as ->; [|done].
  apply (load_profile_skipped_listing now _ _ (Some (Dir entries)) (dict_keys entries)).
  - unfold profile_listing. case_decide; [|done]. by rewrite Hdir.
  - unfold dict_keys. by destruct entries.
  - apply Forall_forall. intros filename _. unfold loaded_file, path_join.
    destruct (dict_get entries filename) as [n|] eqn:Hget;
      [|by rewrite andb_false_r].
    apply dict_get_elem in Hget. destruct (Hsub _ _ Hget) as [subentries ->].
    by rewrite andb_false_r.
Qed.

Lemma detect_first_call_classic_witness :
  detect (λ (_ : nat) _ _, Return "en"%string) 0%nat sample_now
    (λ _, timed_directory) "text" "timed_profiles" None
  = (new_factory, Raise (LangDetectException NeedLoadProfileError)).
Proof.
  eapply (detect_first_call_classic (λ (_ : nat) _ _, Return "en"%string) 0%nat
            sample_now (λ _, timed_directory) "text"%string "timed_profiles"%string).
  - reflexivity.
  - discriminate.
  - intros filename n Hin. apply list_elem_of_In in Hin. cbn in Hin.
    destruct Hin as [[= <- <-]|[[= <- <-]|[]]]; by eexists.
Defined.

(** X22: a call of [init_factory] with a directory name that starts with
    [timed_], when the module's factory is already bound, does not keep
    that factory: the factory it leaves is the one got by loading, in mode
    [classic] and into a new factory, the subdirectory that
    [get_best_timehash] names. *)
Theorem init_factory_timed_reload
    now package profiles_directory timehash_dirs best self :
  py_find profiles_directory "timed_" = 0 →
  os_listdir (package profiles_directory) = Return timehash_dirs →
  get_best_timehash now timehash_dirs = Return best →
  init_factory now package profiles_directory (Some self)
  = load_profile now (path_join (package profiles_directory) best) "classic"
      new_factory.
Proof.
  intros Hname Hdirs Hbest. unfold init_factory. rewrite Hname. cbn.
  by apply (load_profile_mode now _ "expiration" timehash_dirs).
Qed.

Lemma init_factory_timed_reload_witness :
  init_factory sample_now (λ _, timed_directory) "timed_profiles" (Some loaded_en)
  = load_profile sample_now (path_join timed_directory "013120251200") "classic"
      new_factory.
Proof.
  apply (init_factory_timed_reload sample_now (λ _, timed_directory)
           "timed_profiles"%string ["010120251200"; "013120251200"]%string
           "013120251200"%string loaded_en).
  - reflexivity.
  - reflexivity.
  - vm_compute; reflexivity.
Defined.

(** ** clear and create around a load *)

(** X23: after a [load_json_profile] that returned, on any factory,
    [create] returns a detector, with or without a smoothing parameter,
    and leaves the factory as the load left it. *)
Theorem create_after_load json_profiles self self' alpha :
  load_json_profile json_profiles self = (self', Return tt) →
  ∃ detector, create alpha self' = (self', Return detector).
Proof.
  unfold load_json_profile. destruct (_ <? 2) eqn:Hlt; [done|]. Zbool.
  intros (profiles & -> & Hlang & _)%(load_json_loop_Return _ 0%nat).
  rewrite length_fmap in Hlt.
  unfold create, _create_detector, bind, get_self, raise, ret. rewrite Hlang.
  destruct profiles as [|profile profiles]; [cbn in Hlt; lia|].
  destruct (langlist self); cbn; destruct alpha; by eexists.
Qed.

Lemma create_after_load_witness :
  ∃ detector, create None loaded_en_fr = (loaded_en_fr, Return detector).
Proof.
  apply (create_after_load [WellFormed sample_en; WellFormed sample_fr] new_factory).
  vm_compute; reflexivity.
Defined.

(** X24: [clear] followed by [load_json_profile] gives, whatever the
    factory held before, what the load gives on a new factory.  For two or
    more profiles of different languages with defined probabilities it
    returns, [langlist] is the list of their names in the order presented
    and every vector has one slot for each of them. *)
Theorem clear_then_load profiles self :
  (2 ≤ length profiles)%nat →
  NoDup (name <$> profiles) →
  Forall probabilities_defined profiles →
  ∃ self',
    bind clear (λ _, load_json_profile (WellFormed <$> profiles)) self
    = (self', Return tt)
    ∧ langlist self' = name <$> profiles
    ∧ vectors_of_length (length profiles) self'.
Proof.
  intros Hlen Hnodup Hdef.
  destruct (load_json_profile_Return profiles Hlen Hnodup Hdef) as [self' Hload].
  exists self'. unfold bind, clear, update. split; [done|].
  unfold load_json_profile in Hload. rewrite length_fmap in Hload.
  destruct (_ <? 2); [done|].
  pose proof (load_json_loop_vectors_of_length (WellFormed <$> profiles) 0
                (Z.of_nat (length profiles)) (length profiles) new_factory
                (Nat2Z.id _) (vectors_of_length_new _)) as Hvec.
  rewrite Hload in Hvec. split; [|done].
  apply (load_json_loop_Return _ 0%nat) in Hload as (profiles' & Heq & Hlang & _).
  apply WellFormed_fmap_inj in Heq as <-. done.
Qed.

Lemma clear_then_load_witness :
  ∃ self',
    bind clear (λ _, load_json_profile (WellFormed <$> [sample_de; sample_es]))
      loaded_en_fr
    = (self', Return tt)
    ∧ langlist self' = name <$> [sample_de; sample_es]
    ∧ vectors_of_length (length [sample_de; sample_es]) self'.
Proof.
  apply (clear_then_load [sample_de; sample_es] loaded_en_fr).
  - cbn; lia.
  - cbn. apply NoDup_cons. split.
    + intros Hin%list_elem_of_In. cbn in Hin. by destruct Hin as [?|[]].
    + apply NoDup_singleton.
  - repeat constructor; [apply sample_de_defined | apply sample_es_defined].
Defined.
